(** * The kata execution orchestrator ([backend/executor/sandbox.py])

    A shallow embedding of the bounded runner ([run_code]), the foreground
    runner ([run_local]), the process registry ([stop_local]) and the error
    translator ([_make_friendly_error]), together with the properties the
    specification states about them.

    Conventions of the embedding.
    - A Python [str] is a list of Unicode code points ([list N]); literals
      of the source are written as Rocq strings and decoded by [utf8].
    - Paths are POSIX paths ([pathlib.PurePosixPath]); a path is the list of
      its components below the root.
    - The file system, the process table and the module-level registry
      [_active_local_process] are explicit state.  What the operating
      system decides (faults of file operations, how the child behaves) is
      read from an environment record.
    - A Python call either returns a value or raises: [outcome]. *)

From Stdlib Require Import Strings.String Strings.Ascii Strings.Byte NArith Lia Bool.
From stdpp Require Import gmap list.

Local Open Scope N_scope.

(** ** Python strings *)

Abbreviation str := (list N).

(** Code points of a UTF-8 byte sequence (well-formed input is all the
    source literals need; a truncated sequence is dropped). *)
Fixpoint utf8_decode (bs : list N) : str :=
  match bs with
  | [] => []
  | b :: r =>
    if b <? 0x80 then b :: utf8_decode r
    else if b <? 0xE0 then
      match r with
      | c1 :: r1 =>
        N.lor (N.shiftl (N.land b 0x1F) 6) (N.land c1 0x3F) :: utf8_decode r1
      | _ => []
      end
    else if b <? 0xF0 then
      match r with
      | c1 :: c2 :: r2 =>
        N.lor (N.shiftl (N.land b 0x0F) 12)
          (N.lor (N.shiftl (N.land c1 0x3F) 6) (N.land c2 0x3F))
          :: utf8_decode r2
      | _ => []
      end
    else
      match r with
      | c1 :: c2 :: c3 :: r3 =>
        N.lor (N.shiftl (N.land b 0x07) 18)
          (N.lor (N.shiftl (N.land c1 0x3F) 12)
             (N.lor (N.shiftl (N.land c2 0x3F) 6) (N.land c3 0x3F)))
          :: utf8_decode r3
      | _ => []
      end
  end.

Fixpoint bytes_of_string (s : string) : list N :=
  match s with
  | EmptyString => []
  | String a r => N_of_ascii a :: bytes_of_string r
  end.

Definition utf8 (s : string) : str := utf8_decode (bytes_of_string s).
Arguments utf8 s%_string.

Definition LF : N := 10.
Definition CR : N := 13.
Definition SLASH : N := 47.

(** [s.startswith(p)] *)
Fixpoint startswith (s p : str) {struct p} : bool :=
  match p, s with
  | [], _ => true
  | a :: p', b :: s' => (a =? b) && startswith s' p'
  | _ :: _, [] => false
  end.

(** [sub in s] *)
Fixpoint contains (sub s : str) : bool :=
  startswith s sub ||
  match s with
  | [] => false
  | _ :: s' => contains sub s'
  end.

(** [str.isspace] on one code point: the table of
    [_PyUnicode_IsWhitespace]. *)
Definition isspace (c : N) : bool :=
  ((0x09 <=? c) && (c <=? 0x0D)) || ((0x1C <=? c) && (c <=? 0x20))
  || (c =? 0x85) || (c =? 0xA0) || (c =? 0x1680)
  || ((0x2000 <=? c) && (c <=? 0x200A))
  || (c =? 0x2028) || (c =? 0x2029) || (c =? 0x202F) || (c =? 0x205F)
  || (c =? 0x3000).

Fixpoint lstrip (s : str) : str :=
  match s with
  | [] => []
  | c :: r => if isspace c then lstrip r else s
  end.

Definition rstrip (s : str) : str := rev (lstrip (rev s)).

(** [s.strip()] *)
Definition strip (s : str) : str := rstrip (lstrip s).

(** The line boundaries of [str.splitlines]. *)
Definition is_linebreak (c : N) : bool :=
  ((0x0A <=? c) && (c <=? 0x0D)) || ((0x1C <=? c) && (c <=? 0x1E))
  || (c =? 0x85) || (c =? 0x2028) || (c =? 0x2029).

(** [s.splitlines()]: the boundaries are dropped, [\r\n] counts once, and a
    final boundary opens no empty last line. *)
Fixpoint splitlines (s : str) : list str :=
  match s with
  | [] => []
  | c :: r =>
    if is_linebreak c then
      [] :: (if c =? CR then
               match r with
               | c' :: r' => if c' =? LF then splitlines r' else splitlines r
               | [] => splitlines r
               end
             else splitlines r)
    else
      match splitlines r with
      | [] => [[c]]
      | l :: ls => (c :: l) :: ls
      end
  end.

(** [sep.join(ls)] *)
Fixpoint join (sep : str) (ls : list str) : str :=
  match ls with
  | [] => []
  | l :: ls' =>
    match ls' with
    | [] => l
    | _ :: _ => l ++ sep ++ join sep ls'
    end
  end.

(** [s.split(sep)] for a one-character separator. *)
Fixpoint split (sep : N) (s : str) : list str :=
  match s with
  | [] => [[]]
  | c :: r =>
    if c =? sep then [] :: split sep r
    else
      match split sep r with
      | [] => [[c]]
      | l :: ls => (c :: l) :: ls
      end
  end.

(** [Path(filename).name]: the path is cut at [/], empty and [.] components
    are dropped, and the name is the last component left, or the empty
    string. *)
Definition path_parts (filename : str) : list str :=
  filter (λ c, c ≠ [] ∧ c ≠ utf8 ".") (split SLASH filename).

Definition path_name (filename : str) : str :=
  default [] (last (path_parts filename)).

(** Decimal text of a number, as an f-string renders an [int]. *)
Fixpoint decimal_fuel (fuel : nat) (n : N) (acc : str) : str :=
  match fuel with
  | O => acc
  | S f =>
    let acc' := (48 + n mod 10) :: acc in
    if n / 10 =? 0 then acc' else decimal_fuel f (n / 10) acc'
  end.

Definition decimal (n : N) : str := decimal_fuel (S (N.to_nat n)) n [].

(** ** The error translator *)

(** [_make_friendly_error] *)
Definition _make_friendly_error (raw : str) : str :=
  if contains (utf8 "ImportError") raw || contains (utf8 "ModuleNotFoundError") raw
  then utf8 "ğŸš« Import blocked: " ++ raw ++ [LF]
       ++ utf8 "Only `import cv2` and `import numpy as np` are allowed."
  else if contains (utf8 "SyntaxError") raw
  then utf8 "âœï¸ Syntax error in your code: " ++ raw
  else if contains (utf8 "NameError") raw
  then utf8 "â“ Name not found: " ++ raw ++ [LF]
       ++ utf8 "Did you define this variable?"
  else if contains (utf8 "TypeError") raw
  then utf8 "ğŸ”§ Type error: " ++ raw
  else if contains (utf8 "AttributeError") raw
  then utf8 "ğŸ” Attribute error: " ++ raw ++ [LF]
       ++ utf8 "Check the OpenCV function name."
  else utf8 "âŒ Error: " ++ raw.

(** ** Exceptions and outcomes *)

(** The exceptions the orchestrator meets.  [OtherError] stands for any
    further subclass of [Exception] ([ValueError], [UnicodeError], ...);
    the text is what [str(e)] gives. *)
Inductive exn :=
| TimeoutExpired (timeout : N)
| OSError (msg : str)
| OtherError (msg : str).

Definition exn_str (e : exn) : str :=
  match e with
  | TimeoutExpired t => utf8 "Command timed out after " ++ decimal t ++ utf8 " seconds"
  | OSError m => m
  | OtherError m => m
  end.

Inductive outcome (A : Type) :=
| Returned (a : A)
| Raised (e : exn).
Arguments Returned {A} a.
Arguments Raised {A} e.

(** ** The world: file system, foreground processes, registry *)

Abbreviation path := (list (list N)).
Abbreviation bytes := (list byte).

Inductive content :=
| Text (s : str)
| Binary (b : bytes).

Inductive node :=
| Dir
| File (c : content).

Abbreviation pid := N.

(** A foreground child: alive (and how long after SIGTERM it takes to exit,
    in milliseconds, [None] when it ignores the signal), signalled, or
    gone. *)
Inductive pstate :=
| Running (sigterm : option N)
| Terminating (after : option N)
| Exited.

Inductive event :=
| Acquire
| Release
| RegRead
| RegWrite (v : option pid)
| Sigterm (p : pid)
| Waited (p : pid) (seconds : N)
| Sigkill (p : pid)
| Spawned (p : pid).

Record world := World {
  fs : gmap path node;
  procs : gmap pid pstate;
  next_pid : pid;
  registry : option pid;            (* _active_local_process *)
  watchers : list (pid * path);     (* started _cleanup threads *)
  trace : list event;               (* lock, registry and signal events *)
}.

Definition set_fs (f : gmap path node → gmap path node) (w : world) : world :=
  World (f (fs w)) (procs w) (next_pid w) (registry w) (watchers w) (trace w).
Definition set_procs (f : gmap pid pstate → gmap pid pstate) (w : world) : world :=
  World (fs w) (f (procs w)) (next_pid w) (registry w) (watchers w) (trace w).
Definition set_registry (v : option pid) (w : world) : world :=
  World (fs w) (procs w) (next_pid w) v (watchers w) (trace w).
Definition set_watchers (f : list (pid * path) → list (pid * path)) (w : world) : world :=
  World (fs w) (procs w) (next_pid w) (registry w) (f (watchers w)) (trace w).
Definition log (e : event) (w : world) : world :=
  World (fs w) (procs w) (next_pid w) (registry w) (watchers w) (trace w ++ [e]).

(** What the operating system decides. *)
Inductive child_behaviour :=
| CannotStart (msg : str)            (* the interpreter cannot be run: OSError *)
| Undecodable (msg : str)            (* the output is not UTF-8: UnicodeDecodeError *)
| Exits (after_ms : N) (out err : str)
| Hangs.

Inductive spawn :=
| SpawnFails (msg : str)             (* [subprocess.Popen] raises OSError *)
| Spawns (sigterm : option N).

Record environment := Env {
  io_fault : path → option str;      (* the OSError met on this path, if any *)
  tmp_suffix : str;                  (* random part of a temporary name *)
  bounded_child : child_behaviour;   (* the child of [subprocess.run] *)
  foreground_child : spawn;          (* the child of [subprocess.Popen] *)
}.

(** Computations: state passing with exceptions. *)
Definition M (A : Type) := world → outcome A * world.

Definition ret {A} (a : A) : M A := λ w, (Returned a, w).
Definition raise {A} (e : exn) : M A := λ w, (Raised e, w).
Definition bind {A B} (m : M A) (k : A → M B) : M B :=
  λ w, match m w with
       | (Returned a, w') => k a w'
       | (Raised e, w') => (Raised e, w')
       end.
Definition try_except {A} (m : M A) (h : exn → M A) : M A :=
  λ w, match m w with
       | (Returned a, w') => (Returned a, w')
       | (Raised e, w') => h e w'
       end.
Definition modify (f : world → world) : M unit := λ w, (Returned tt, f w).
Definition gets {A} (f : world → A) : M A := λ w, (Returned (f w), w).

Notation "x <- m ;; k" := (bind m (λ x, k))
  (at level 100, m at next level, k at level 200, right associativity).
Notation "m ;; k" := (bind m (λ _, k))
  (at level 100, k at level 200, right associativity).

(** ** Operating-system primitives *)

(** [tempfile.gettempdir()] *)
Definition TMP : path := [utf8 "tmp"].

Definition parent (p : path) : path := removelast p.

Definition EISDIR : exn := OSError (utf8 "[Errno 21] Is a directory").
Definition ENOENT : exn := OSError (utf8 "[Errno 2] No such file or directory").
Definition ENOTDIR : exn := OSError (utf8 "[Errno 20] Not a directory").
Definition ENOTEMPTY : exn := OSError (utf8 "[Errno 39] Directory not empty").
Definition EEXIST : exn :=
  OSError (utf8 "[Errno 17] No usable temporary directory name found").

(** [tempfile.mkdtemp(prefix=prefix)]: a new directory below [TMP]. *)
Definition mkdtemp (env : environment) (prefix : str) : M path :=
  λ w,
    let d := TMP ++ [prefix ++ tmp_suffix env] in
    match io_fault env d with
    | Some m => (Raised (OSError m), w)
    | None =>
      match fs w !! d with
      | Some _ => (Raised EEXIST, w)
      | None => (Returned d, set_fs (insert d Dir) w)
      end
    end.

(** [open(p, "w")]: creates or truncates the file.  A name holding a NUL
    is refused before the system is asked ([ValueError]); [..] always names
    a directory. *)
Definition open_w (env : environment) (p : path) : M unit :=
  λ w,
    let name := default [] (last p) in
    if bool_decide (0 ∈ name) then
      (Raised (OtherError (utf8 "embedded null byte")), w)
    else
      match io_fault env p with
      | Some m => (Raised (OSError m), w)
      | None =>
        if bool_decide (name = utf8 "..") then (Raised EISDIR, w)
        else
          match fs w !! p with
          | Some Dir => (Raised EISDIR, w)
          | _ =>
            match fs w !! parent p with
            | Some Dir => (Returned tt, set_fs (insert p (File (Binary []))) w)
            | _ => (Raised ENOENT, w)
            end
          end
      end.

Definition is_surrogate (c : N) : bool := (0xD800 <=? c) && (c <=? 0xDFFF).

(** [p.write_text(data, encoding="utf-8")]: the file is opened, then the
    text is encoded and written; a lone surrogate cannot be encoded. *)
Definition write_text (env : environment) (p : path) (data : str) : M unit :=
  open_w env p ;;
  if existsb is_surrogate data then
    raise (OtherError (utf8 "'utf-8' codec can't encode character: surrogates not allowed"))
  else modify (set_fs (insert p (File (Text data)))).

(** [p.write_bytes(data)] *)
Definition write_bytes (env : environment) (p : path) (data : bytes) : M unit :=
  open_w env p ;;
  modify (set_fs (insert p (File (Binary data)))).

(** [p.exists()] *)
Definition exists_ (p : path) : M bool :=
  gets (λ w, bool_decide (is_Some (fs w !! p))).

(** [p.is_file()] *)
Definition is_file (p : path) : M bool :=
  gets (λ w, match fs w !! p with Some (File _) => true | _ => false end).

(** [os.unlink(p)] and [p.unlink(missing_ok=...)] *)
Definition unlink (env : environment) (missing_ok : bool) (p : path) : M unit :=
  λ w,
    match io_fault env p with
    | Some m => (Raised (OSError m), w)
    | None =>
      match fs w !! p with
      | Some (File _) => (Returned tt, set_fs (delete p) w)
      | Some Dir => (Raised EISDIR, w)
      | None => if missing_ok then (Returned tt, w) else (Raised ENOENT, w)
      end
    end.

Definition children (f : gmap path node) (d : path) : list path :=
  filter (λ p, p ≠ [] ∧ parent p = d) (map_to_list f).*1.

(** [d.iterdir()] *)
Definition iterdir (env : environment) (d : path) : M (list path) :=
  λ w,
    match io_fault env d with
    | Some m => (Raised (OSError m), w)
    | None =>
      match fs w !! d with
      | Some Dir => (Returned (children (fs w) d), w)
      | Some (File _) => (Raised ENOTDIR, w)
      | None => (Raised ENOENT, w)
      end
    end.

(** [d.rmdir()] *)
Definition rmdir (env : environment) (d : path) : M unit :=
  λ w,
    match io_fault env d with
    | Some m => (Raised (OSError m), w)
    | None =>
      match fs w !! d with
      | Some Dir =>
        match children (fs w) d with
        | [] => (Returned tt, set_fs (delete d) w)
        | _ :: _ => (Raised ENOTEMPTY, w)
        end
      | Some (File _) => (Raised ENOTDIR, w)
      | None => (Raised ENOENT, w)
      end
    end.

(** Leaving [with tempfile.TemporaryDirectory(prefix=...) as d]: the
    directory and all below it are removed, on return and on raise alike. *)
Definition rmtree (d : path) (f : gmap path node) : gmap path node :=
  filter (λ kv, ¬ d `prefix_of` kv.1) f.

Definition with_TemporaryDirectory {A} (env : environment) (prefix : str)
    (body : path → M A) : M A :=
  d <- mkdtemp env prefix ;;
  λ w, let '(r, w') := body d w in (r, set_fs (rmtree d) w').

(** [subprocess.run(..., capture_output=True, text=True, timeout=t)]:
    the captured streams of a child that exits in time, [TimeoutExpired]
    otherwise (the child is killed before the exception is raised). *)
Definition subprocess_run (env : environment) (timeout : N) : M (str * str) :=
  match bounded_child env with
  | CannotStart m => raise (OSError m)
  | Undecodable m => raise (OtherError m)
  | Exits after_ms out err =>
    if after_ms <=? 1000 * timeout then ret (out, err)
    else raise (TimeoutExpired timeout)
  | Hangs => raise (TimeoutExpired timeout)
  end.

(** [subprocess.Popen(...)]: a new running child, known by its handle. *)
Definition Popen (env : environment) : M pid :=
  λ w,
    match foreground_child env with
    | SpawnFails m => (Raised (OSError m), w)
    | Spawns b =>
      let p := next_pid w in
      (Returned p,
       World (fs w) (<[p := Running b]> (procs w)) (p + 1) (registry w)
             (watchers w) (trace w ++ [Spawned p]))
    end.

(** [proc.poll() is None] *)
Definition poll_is_None (p : pid) : M bool :=
  gets (λ w, match procs w !! p with
             | Some (Running _) | Some (Terminating _) => true
             | _ => false
             end).

(** [proc.terminate()] *)
Definition terminate (p : pid) : M unit :=
  modify (λ w, log (Sigterm p)
    (set_procs (alter (λ st, match st with Running b => Terminating b | _ => st end) p) w)).

(** [proc.wait(timeout=t)] *)
Definition wait (p : pid) (timeout : N) : M unit :=
  λ w,
    let w' := log (Waited p timeout) w in
    match procs w !! p with
    | Some (Terminating (Some d)) =>
      if d <=? 1000 * timeout
      then (Returned tt, set_procs (insert p Exited) w')
      else (Raised (TimeoutExpired timeout), w')
    | Some (Terminating None) | Some (Running _) =>
      (Raised (TimeoutExpired timeout), w')
    | Some Exited | None => (Returned tt, w')
    end.

(** [proc.kill()] *)
Definition kill (p : pid) : M unit :=
  modify (λ w, log (Sigkill p) (set_procs (alter (λ _, Exited) p) w)).

(** [with _active_local_lock:] and the accesses to [_active_local_process] *)
Definition acquire : M unit := modify (log Acquire).
Definition release : M unit := modify (log Release).
Definition reg_read : M (option pid) := λ w, (Returned (registry w), log RegRead w).
Definition reg_write (v : option pid) : M unit :=
  modify (λ w, log (RegWrite v) (set_registry v w)).

(** ** The orchestrator *)

Definition TIMEOUT_SECONDS : N := 10.

Record ExecutionResult := Result {
  image_b64 : option str;
  logs : str;
  error : str;
}.

Record StopResult := Stop {
  stopped : bool;
  message : str;
}.

(** The loop of [_write_uploaded_files]. *)
Fixpoint write_each (env : environment) (run_dir : path)
    (uploaded_files : list (str * bytes)) : M unit :=
  match uploaded_files with
  | [] => ret tt
  | (filename, content) :: rest =>
    let safe_name := path_name filename in
    match safe_name with
    | [] => write_each env run_dir rest
    | _ :: _ =>
      write_bytes env (run_dir ++ [safe_name]) content ;;
      write_each env run_dir rest
    end
  end.

(** [_write_uploaded_files] *)
Definition _write_uploaded_files (env : environment) (run_dir : path)
    (uploaded_files : option (list (str * bytes))) : M unit :=
  match uploaded_files with
  | None | Some [] => ret tt
  | Some files => write_each env run_dir files
  end.

(** One turn of the loop over the lines of [stdout]. *)
Definition stdout_line (acc : option str * list str) (line : str)
    : option str * list str :=
  let '(image_b64, logs_lines) := acc in
  if startswith line (utf8 "IMAGE:") then
    (Some (drop (length (utf8 "IMAGE:")) line), logs_lines)
  else if startswith line (utf8 "INFO:") then
    (image_b64, logs_lines ++ [drop (length (utf8 "INFO:")) line])
  else (image_b64, logs_lines ++ [line]).

(** One turn of the loop over the lines of [stderr]. *)
Definition stderr_line (acc : list str * str) (line : str) : list str * str :=
  let '(logs_lines, error) := acc in
  if startswith line (utf8 "EXEC_ERROR:") then
    (logs_lines, _make_friendly_error (drop (length (utf8 "EXEC_ERROR:")) line))
  else (logs_lines ++ [line], error).

(** What [run_code] makes of the streams of a child that exited. *)
Definition parse_output (result_stdout result_stderr : str) : ExecutionResult :=
  let stdout := strip result_stdout in
  let stderr := strip result_stderr in
  let '(image_b64, logs_lines) :=
    fold_left stdout_line (splitlines stdout) (None, []) in
  let '(logs_lines, error) :=
    match stderr with
    | [] => (logs_lines, [])
    | _ :: _ => fold_left stderr_line (splitlines stderr) (logs_lines, [])
    end in
  Result image_b64 (join [LF] logs_lines) error.

Definition TIMEOUT_MESSAGE : str :=
  utf8 "â± Execution timed out after " ++ decimal TIMEOUT_SECONDS
  ++ utf8 " seconds. " ++ utf8 "Check for infinite loops.".

(** The [try] block of [run_code]. *)
Definition run_code_body (env : environment) (code : str)
    (uploaded_files : option (list (str * bytes))) : M ExecutionResult :=
  with_TemporaryDirectory env (utf8 "kata_run_") (λ run_dir,
    let tmp_path := run_dir ++ [utf8 "kata.py"] in
    write_text env tmp_path code ;;
    _write_uploaded_files env run_dir uploaded_files ;;
    result <- subprocess_run env TIMEOUT_SECONDS ;;
    ret (parse_output result.1 result.2)).

(** The [except] clauses of [run_code]. *)
Definition run_code_except (e : exn) : M ExecutionResult :=
  match e with
  | TimeoutExpired _ => ret (Result None [] TIMEOUT_MESSAGE)
  | _ => ret (Result None [] (utf8 "Execution failed: " ++ exn_str e))
  end.

(** [run_code] *)
Definition run_code (env : environment) (code : str)
    (uploaded_files : option (list (str * bytes))) : M ExecutionResult :=
  try_except (run_code_body env code uploaded_files) run_code_except.

(** [stop_local] *)
Definition stop_local : M StopResult :=
  acquire ;;
  proc <- reg_read ;;
  reg_write None ;;
  release ;;
  match proc with
  | Some p =>
    running <- poll_is_None p ;;
    if running then
      terminate p ;;
      try_except (wait p 3)
        (λ e, match e with TimeoutExpired _ => kill p | _ => raise e end) ;;
      ret (Stop true (utf8 "Local process stopped."))
    else ret (Stop false (utf8 "No local process was running."))
  | None => ret (Stop false (utf8 "No local process was running."))
  end.

(** [try: ... except OSError: pass] *)
Definition ignoring_OSError (m : M unit) : M unit :=
  try_except m (λ e, match e with OSError _ => ret tt | _ => raise e end).

Fixpoint unlink_files (env : environment) (cs : list path) : M unit :=
  match cs with
  | [] => ret tt
  | child :: rest =>
    f <- is_file child ;;
    (if f then unlink env true child else ret tt) ;;
    unlink_files env rest
  end.

(** The removal both [run_local] and [_cleanup] attempt. *)
Definition remove_run_dir (env : environment) (tmp_path run_dir : path) : M unit :=
  ignoring_OSError (
    e <- exists_ tmp_path ;;
    (if e then unlink env false tmp_path else ret tt) ;;
    cs <- iterdir env run_dir ;;
    unlink_files env cs ;;
    rmdir env run_dir).

(** [_cleanup], from the point where [proc.wait()] has returned. *)
Definition _cleanup (env : environment) (proc : pid) (run_dir : path) : M unit :=
  acquire ;;
  cur <- reg_read ;;
  (if bool_decide (cur = Some proc) then reg_write None else ret tt) ;;
  release ;;
  remove_run_dir env (run_dir ++ [utf8 "kata.py"]) run_dir.

(** [threading.Thread(target=_cleanup, daemon=True).start()] *)
Definition start_cleanup_thread (proc : pid) (run_dir : path) : M unit :=
  modify (set_watchers (λ l, l ++ [(proc, run_dir)])).

Definition RUNNING_MESSAGE : str :=
  utf8 "Running on your desktop â€” an OpenCV window should appear." ++ [LF]
  ++ utf8 "Press 'q' in the OpenCV window to quit.".

(** [run_local] *)
Definition run_local (env : environment) (code : str)
    (uploaded_files : option (list (str * bytes))) : M ExecutionResult :=
  stop_local ;;
  run_dir <- mkdtemp env (utf8 "kata_live_") ;;
  let tmp_path := run_dir ++ [utf8 "kata.py"] in
  write_text env tmp_path code ;;
  _write_uploaded_files env run_dir uploaded_files ;;
  try_except
    (proc <- Popen env ;;
     acquire ;;
     reg_write (Some proc) ;;
     release ;;
     start_cleanup_thread proc run_dir ;;
     ret (Result None RUNNING_MESSAGE []))
    (λ e,
     remove_run_dir env tmp_path run_dir ;;
     ret (Result None [] (utf8 "Failed to launch: " ++ exn_str e))).

(** ** The system over time *)

(** What can happen to the registry and the foreground children: a launch,
    a stop, a child ending by itself, and the [_cleanup] thread of an ended
    child running. *)
Inductive op :=
| Launch (env : environment) (code : str) (uploaded_files : option (list (str * bytes)))
| StopOp
| ChildExits (p : pid)
| CleanupRuns (env : environment) (p : pid).

Definition child_exits (p : pid) (w : world) : world :=
  match procs w !! p with
  | Some (Running _) => set_procs (insert p Exited) w
  | _ => w
  end.

Definition cleanup_runs (env : environment) (p : pid) (w : world) : world :=
  match procs w !! p, list_find (λ t, t.1 = p) (watchers w) with
  | Some Exited, Some (i, (_, run_dir)) =>
    (_cleanup env p run_dir (set_watchers (delete i) w)).2
  | _, _ => w
  end.

Definition step (w : world) (o : op) : world :=
  match o with
  | Launch env code files => (run_local env code files w).2
  | StopOp => (stop_local w).2
  | ChildExits p => child_exits p w
  | CleanupRuns env p => cleanup_runs env p w
  end.

Definition initial : world := World ∅ ∅ 0 None [] [].

Definition run_ops (ops : list op) : world := fold_left step ops initial.

(** Every access to the registry lies between an acquire and the release
    that follows it. *)
Fixpoint well_locked (held : bool) (t : list event) : bool :=
  match t with
  | [] => negb held
  | Acquire :: t' => negb held && well_locked true t'
  | Release :: t' => held && well_locked false t'
  | RegRead :: t' | RegWrite _ :: t' => held && well_locked held t'
  | _ :: t' => well_locked held t'
  end.

(** ** The specification's wording, to compare with the code *)

(** The translator as the specification words it: an ordered list of
    categories, each with the substrings that select it and the text it
    renders; the first category that matches is applied, and a message
    that matches none gets the generic prefix. *)
Record category := Category {
  patterns : list str;
  render : str → str;
}.

Definition GENERIC_PREFIX : str := utf8 "âŒ Error: ".
Definition ALLOWED_IMPORTS : str :=
  utf8 "Only `import cv2` and `import numpy as np` are allowed.".

Definition blocked_import : category :=
  Category [utf8 "ImportError"; utf8 "ModuleNotFoundError"]
    (λ raw, utf8 "ğŸš« Import blocked: " ++ raw ++ [LF] ++ ALLOWED_IMPORTS).
Definition syntax_error : category :=
  Category [utf8 "SyntaxError"]
    (λ raw, utf8 "âœï¸ Syntax error in your code: " ++ raw).
Definition undefined_name : category :=
  Category [utf8 "NameError"]
    (λ raw, utf8 "â“ Name not found: " ++ raw ++ [LF]
            ++ utf8 "Did you define this variable?").
Definition type_mismatch : category :=
  Category [utf8 "TypeError"] (λ raw, utf8 "ğŸ”§ Type error: " ++ raw).
Definition attribute_error : category :=
  Category [utf8 "AttributeError"]
    (λ raw, utf8 "ğŸ” Attribute error: " ++ raw ++ [LF]
            ++ utf8 "Check the OpenCV function name.").

Definition categories : list category :=
  [blocked_import; syntax_error; undefined_name; type_mismatch; attribute_error].

Definition matches (raw : str) (c : category) : bool :=
  existsb (λ p, contains p raw) (patterns c).

Definition translate_first_match (raw : str) : str :=
  match find (matches raw) categories with
  | Some c => render c raw
  | None => GENERIC_PREFIX ++ raw
  end.

(** The lines of a stream as the two loops of [run_code] classify them. *)
Definition is_image (line : str) : bool := startswith line (utf8 "IMAGE:").
Definition is_info (line : str) : bool := startswith line (utf8 "INFO:").
Definition is_exec_error (line : str) : bool := startswith line (utf8 "EXEC_ERROR:").

(** The payload after a tag of [n] characters. *)
Definition payload (n : nat) (line : str) : str := drop n line.

(** Last-wins image: the payload of the last [IMAGE:] line, if any. *)
Definition last_image (lines : list str) : option str :=
  payload 6 <$> last (filter (λ l, is_image l = true) lines).

(** What the lines of stdout add to the log, in order: nothing for an
    [IMAGE:] line, the remainder of an [INFO:] line, any other line as it
    is. *)
Definition stdout_log (lines : list str) : list str :=
  flat_map (λ l, if is_image l then []
                 else if is_info l then [payload 5 l] else [l]) lines.

(** What the lines of stderr add to the log: the lines without the
    [EXEC_ERROR:] tag. *)
Definition stderr_log (lines : list str) : list str :=
  filter (λ l, is_exec_error l = false) lines.

(** Last-wins error: the translation of the last [EXEC_ERROR:] line. *)
Definition last_error (lines : list str) : str :=
  default [] (_make_friendly_error ∘ payload 11 <$>
              last (filter (λ l, is_exec_error l = true) lines)).

(** ** Predicates used in the statements *)

(** [frame w w']: the two worlds differ in the file system at most. *)
Definition frame (w w' : world) : Prop := ∃ f, w' = set_fs (λ _, f) w.

(** [fsop P m]: [m] touches the file system only and raises only
    exceptions in [P]. *)
Definition fsop {A} (P : exn → Prop) (m : M A) : Prop :=
  ∀ w, frame w (m w).2 ∧ ∀ e, (m w).1 = Raised e → P e.

Definition is_OSError (e : exn) : Prop := ∃ m, e = OSError m.
Definition not_timeout (e : exn) : Prop := ∀ t, e ≠ TimeoutExpired t.

(** The first statements of [run_code] and of [run_local] after the stop:
    the scratch directory is made, and the source and the uploaded files
    are written into it. *)
Definition materialize (env : environment) (prefix code : str)
    (uploaded_files : option (list (str * bytes))) : M path :=
  run_dir <- mkdtemp env prefix ;;
  write_text env (run_dir ++ [utf8 "kata.py"]) code ;;
  _write_uploaded_files env run_dir uploaded_files ;;
  ret run_dir.

(** The child of [run_code] is still running when the deadline passes. *)
Definition overruns (c : child_behaviour) : bool :=
  match c with
  | Hangs => true
  | Exits after_ms _ _ => negb (after_ms <=? 1000 * TIMEOUT_SECONDS)
  | CannotStart _ | Undecodable _ => false
  end.

(** The image field carries a payload. *)
Definition has_image (r : ExecutionResult) : bool :=
  match image_b64 r with
  | Some (_ :: _) => true
  | _ => false
  end.

(** The child printed an [IMAGE:] line and an [EXEC_ERROR:] line. *)
Definition emits_both (c : child_behaviour) : bool :=
  match c with
  | Exits _ out err =>
    existsb is_image (splitlines (strip out))
    && existsb is_exec_error (splitlines (strip err))
  | _ => false
  end.

(** The scratch directory was filled and the child exited within the
    deadline, having printed an [IMAGE:] line and an [EXEC_ERROR:] line. *)
Definition prints_both_in_time (env : environment) (code : str)
    (uploaded_files : option (list (str * bytes))) (w : world) : bool :=
  match (materialize env (utf8 "kata_run_") code uploaded_files w).1 with
  | Returned _ => negb (overruns (bounded_child env)) && emits_both (bounded_child env)
  | Raised _ => false
  end.

(** What [subprocess.run] and the parsing make of the child. *)
Definition child_result (env : environment) : outcome ExecutionResult :=
  match bounded_child env with
  | CannotStart m => Raised (OSError m)
  | Undecodable m => Raised (OtherError m)
  | Exits after_ms out err =>
    if overruns (bounded_child env) then Raised (TimeoutExpired TIMEOUT_SECONDS)
    else Returned (parse_output out err)
  | Hangs => Raised (TimeoutExpired TIMEOUT_SECONDS)
  end.

(** ** Sample environments *)

Definition no_fault : path → option str := λ _, None.

(** A healthy system in which the bounded child behaves as [c]. *)
Definition env_of (c : child_behaviour) : environment :=
  Env no_fault (utf8 "a1b2c3d4") c (Spawns (Some 100)).

(** A child that prints an image and then fails. *)
Definition image_then_error : child_behaviour :=
  Exits 200 (utf8 "IMAGE:aGVsbG8=" ++ [LF])
            (utf8 "EXEC_ERROR:NameError: name 'x' is not defined" ++ [LF]).

(** A child that prints an image and an error, but only after the
    deadline. *)
Definition late_both : child_behaviour :=
  Exits 20000 (utf8 "IMAGE:aGVsbG8=" ++ [LF])
              (utf8 "EXEC_ERROR:NameError: name 'x' is not defined" ++ [LF]).

(** A child that fails without an image. *)
Definition error_only : child_behaviour :=
  Exits 200 (utf8 "INFO:starting" ++ [LF])
            (utf8 "EXEC_ERROR:NameError: name 'x' is not defined" ++ [LF]).

(** A child whose first line is indented and whose image line ends in a
    blank. *)
Definition indented_output : child_behaviour :=
  Exits 200 (utf8 "  indented" ++ [LF] ++ utf8 "IMAGE:aGVsbG8= " ++ [LF]) [].

(** A child with tagged and plain lines on both streams. *)
Definition mixed_output : child_behaviour :=
  Exits 200
    (utf8 "IMAGE:Zmlyc3Q=" ++ [LF] ++ utf8 "INFO:step 1" ++ [LF]
     ++ utf8 "plain" ++ [LF] ++ utf8 "IMAGE:c2Vjb25k" ++ [LF])
    (utf8 "EXEC_ERROR:TypeError: bad" ++ [LF] ++ utf8 "warning: slow" ++ [LF]
     ++ utf8 "EXEC_ERROR:ImportError: cv2" ++ [LF]).

(** The scratch directory of [run_code] in [env_of c], and the world
    in which it has just been made. *)
Definition sample_dir : path := [utf8 "tmp"; utf8 "kata_run_a1b2c3d4"].


Definition dotdot_upload : option (list (str * bytes)) :=
  Some [(utf8 "..", [])].

(** The scratch directory of [run_local] in [env_of c]. *)
Definition live_dir : path := [utf8 "tmp"; utf8 "kata_live_a1b2c3d4"].

(** The results [run_code] gives for the sample children. *)
Definition NAME_ERROR : str := utf8 "NameError: name 'x' is not defined".
Definition error_only_result : ExecutionResult :=
  Result None (utf8 "starting") (_make_friendly_error NAME_ERROR).
Definition image_then_error_result : ExecutionResult :=
  Result (Some (utf8 "aGVsbG8=")) [] (_make_friendly_error NAME_ERROR).
Definition indented_result : ExecutionResult :=
  Result (Some (utf8 "aGVsbG8=")) (utf8 "indented") [].
Definition mixed_result : ExecutionResult :=
  Result (Some (utf8 "c2Vjb25k"))
         (utf8 "step 1" ++ [LF] ++ utf8 "plain" ++ [LF] ++ utf8 "warning: slow")
         (_make_friendly_error (utf8 "ImportError: cv2")).

(** ** The registry over time: notions for the statements *)

(** A child that has not ended. *)
Definition alive (st : pstate) : bool :=
  match st with
  | Exited => false
  | Running _ | Terminating _ => true
  end.

(** The child ends within the grace period of [stop_local] once it is
    asked to. *)
Definition graceful (sigterm : option N) : bool :=
  match sigterm with
  | Some d => d <=? 1000 * 3
  | None => false
  end.

(** The events of taking and clearing the handle. *)
Definition TAKE : list event := [Acquire; RegRead; RegWrite None; Release].

(** The events of stopping the running child [p]. *)
Definition STOPPING (p : pid) (sigterm : option N) : list event :=
  [Sigterm p; Waited p 3] ++ (if graceful sigterm then [] else [Sigkill p]).

(** The events of registering the new child [p]. *)
Definition REGISTER (p : pid) : list event :=
  [Spawned p; Acquire; RegWrite (Some p); Release].

Definition STOPPED : StopResult := Stop true (utf8 "Local process stopped.").
Definition NOT_RUNNING : StopResult := Stop false (utf8 "No local process was running.").

(** The handles the registry holds. *)
Definition handles (w : world) : list pid :=
  match registry w with
  | Some p => [p]
  | None => []
  end.

(** What holds of the registry and the children between operations. *)
Record invariant (w : world) : Prop := Invariant {
  inv_registered : ∀ p st, procs w !! p = Some st → alive st = true → registry w = Some p;
  inv_fresh : ∀ p st, procs w !! p = Some st → p < next_pid w;
  inv_handle : ∀ p, registry w = Some p → is_Some (procs w !! p);
  inv_locked : well_locked false (trace w) = true;
}.

(** The world after [run_local] has started and registered a child that
    answers SIGTERM as [sigterm], in the scratch directory [run_dir]. *)
Definition launched (w : world) (run_dir : path) (sigterm : option N) : world :=
  World (fs w) (<[next_pid w := Running sigterm]> (procs w)) (next_pid w + 1)
        (Some (next_pid w)) (watchers w ++ [(next_pid w, run_dir)])
        (trace w ++ REGISTER (next_pid w)).

(** No handle is registered and no child is alive. *)
Definition quiescent (w : world) : Prop :=
  registry w = None ∧ ∀ p st, procs w !! p = Some st → alive st = false.

(** How a child answers SIGTERM. *)
Definition sigterm_of (st : pstate) : option N :=
  match st with
  | Running b | Terminating b => b
  | Exited => None
  end.

(** A first launch, and the environment of a second one whose child
    ignores SIGTERM. *)
Definition first_launch : list op :=
  [Launch (env_of Hangs) (utf8 "cv2.VideoCapture(0)") None].
Definition second_env : environment :=
  Env no_fault (utf8 "e5f6g7h8") Hangs (Spawns None).

(** The child of the first launch has ended, and its [_cleanup] thread has
    not yet run. *)
Definition child_gone : list op := first_launch ++ [ChildExits 0].

(** A system whose disk is full when the source is written, and a child
    whose interpreter is missing. *)
Definition NO_SPACE : str := utf8 "[Errno 28] No space left on device".
Definition disk_full : environment :=
  Env (λ p, if bool_decide (last p = Some (utf8 "kata.py")) then Some NO_SPACE else None)
      (utf8 "a1b2c3d4") Hangs (Spawns None).
Definition NO_PYTHON : str := utf8 "[Errno 2] No such file or directory: 'python'".

(** ** Further notions for the statements *)

(** [within d m]: [m] changes the file system below [d] at most. *)
Definition within {A} (d : path) (m : M A) : Prop :=
  ∀ w q, ¬ d `prefix_of` q → fs (m w).2 !! q = fs w !! q.

(** The directory [mkdtemp] makes for a prefix. *)
Definition temp_dir (env : environment) (prefix : str) : path :=
  TMP ++ [prefix ++ tmp_suffix env].

(** The upload that ends up under the name [n]: the last one so named. *)
Definition last_upload (n : str) (files : list (str * bytes)) : option (str * bytes) :=
  last (filter (λ fc, path_name fc.1 = n) files).

(** An upload that carries the name of the source file. *)
Definition kata_upload : option (list (str * bytes)) :=
  Some [(utf8 "a/kata.py", [x31]); (utf8 "img.png", [x32]); (utf8 "kata.py", [x33])].

(** A child whose streams are wrapped in blank space. *)
Definition padded_output : child_behaviour :=
  Exits 200 ([LF; 32] ++ utf8 "INFO:ready" ++ [32; LF]) ([9] ++ utf8 "note" ++ [LF; LF]).

(** No operation on the file system fails for a reason of the system's
    own (full disk, permissions, ...). *)
Definition healthy (env : environment) : Prop := ∀ p, io_fault env p = None.

(** Only regular files lie directly in [d]. *)
Definition only_files (d : path) (f : gmap path node) : Prop :=
  ∀ name x, f !! (d ++ [name]) = Some x → ∃ c, x = File c.

(** [f'] is [f] without [d] and without what lies directly in [d]. *)
Definition cleared (d : path) (f f' : gmap path node) : Prop :=
  f' !! d = None
  ∧ (∀ name, f' !! (d ++ [name]) = None)
  ∧ ∀ q, q ≠ d → (∀ name, q ≠ d ++ [name]) → f' !! q = f !! q.

(** [m] keeps what holds of the world in [I]. *)
Definition preserves {A} (I : world → Prop) (m : M A) : Prop :=
  ∀ w, I w → I (m w).2.

(** A scratch directory in which the child has made a directory of its
    own. *)
Definition nested_world : world :=
  set_fs (λ _, {[ live_dir := Dir; live_dir ++ [utf8 "frames"] := Dir;
                  live_dir ++ [utf8 "kata.py"] := File (Text (utf8 "import cv2")) ]})
         initial.

(** A scratch directory that holds the source and an upload. *)
Definition filled_world : world :=
  set_fs (λ _, {[ live_dir := Dir;
                  live_dir ++ [utf8 "img.png"] := File (Binary [x32]);
                  live_dir ++ [utf8 "kata.py"] := File (Text (utf8 "import cv2")) ]})
         initial.

(** A healthy system on which the interpreter of the foreground child
    cannot be started. *)
Definition no_python : environment :=
  Env no_fault (utf8 "e5f6g7h8") Hangs (SpawnFails NO_PYTHON).

(** A foreground session from start to end: the launch, the child ending
    by itself, and its [_cleanup] thread running in the system [env']. *)
Definition natural_exit (env env' : environment) (code : str)
    (uploaded_files : option (list (str * bytes))) (w : world) : world :=
  fold_left step
    [Launch env code uploaded_files; ChildExits (next_pid w);
     CleanupRuns env' (next_pid w)] w.

(** ** The route [/api/execute] *)



(** [stop_execution] *)
Definition stop_execution : M StopResult := stop_local.


(** A second launch over the first session. *)
Definition second_launch : list op :=
  first_launch ++ [Launch second_env (utf8 "cv2.VideoCapture(1)") None].

(** ** The string functions on samples *)

Example utf8_sample :
  utf8 "âŒ Error: x" = [0xE2; 0x152; 32; 69; 114; 114; 111; 114; 58; 32; 120].
Proof. vm_compute. reflexivity. Qed.

Example splitlines_sample :
  splitlines (utf8 "a" ++ [CR; LF] ++ utf8 "b" ++ [LF; LF] ++ utf8 "c" ++ [LF])
  = [utf8 "a"; utf8 "b"; []; utf8 "c"]
  ∧ splitlines [LF] = [[]]
  ∧ splitlines (utf8 "a" ++ [0x0B] ++ utf8 "b" ++ [0x2028] ++ utf8 "c" ++ [CR])
    = [utf8 "a"; utf8 "b"; utf8 "c"].
Proof. vm_compute. auto. Qed.

Example strip_sample :
  strip ([32; 9] ++ utf8 " IMAGE:abc " ++ [LF]) = utf8 "IMAGE:abc"
  ∧ strip (utf8 "a b") = utf8 "a b".
Proof. vm_compute. auto. Qed.

Example path_name_sample :
  path_name (utf8 "../../evil.txt") = utf8 "evil.txt"
  ∧ path_name (utf8 "a/..") = utf8 ".."
  ∧ path_name (utf8 "a/.") = utf8 "a"
  ∧ path_name (utf8 "a//b/") = utf8 "b"
  ∧ path_name (utf8 ".") = []
  ∧ path_name (utf8 "/") = []
  ∧ path_name [] = [].
Proof. vm_compute. repeat split. Qed.

Example decimal_sample :
  decimal 10 = utf8 "10" ∧ decimal 0 = utf8 "0" ∧ decimal 305 = utf8 "305".
Proof. vm_compute. auto. Qed.

Example friendly_error_sample :
  _make_friendly_error (utf8 "ImportError: cv2")
  = utf8 "ğŸš« Import blocked: ImportError: cv2" ++ [LF]
    ++ utf8 "Only `import cv2` and `import numpy as np` are allowed."
  ∧ _make_friendly_error (utf8 "ZeroDivisionError: division by zero")
    = utf8 "âŒ Error: ZeroDivisionError: division by zero".
Proof. vm_compute. auto. Qed.

(** ** Strings: basic facts *)

Lemma startswith_app (p r : str) : startswith (p ++ r) p = true.
Proof.
  induction p as [|a p IH]; simpl; [done|].
  by rewrite N.eqb_refl, IH.
Qed.

Lemma startswith_inv (s p : str) :
  startswith s p = true → s = p ++ drop (length p) s.
Proof.
  revert s; induction p as [|a p IH]; intros s H; simpl in *; [done|].
  destruct s as [|b s]; [done|].
  apply andb_true_iff in H as [Hab Hs].
  apply N.eqb_eq in Hab as ->. simpl. f_equal. by apply IH.
Qed.

Lemma contains_here (sub r : str) : contains sub (sub ++ r) = true.
Proof.
  destruct (sub ++ r) eqn:E; simpl; rewrite <- E, startswith_app; done.
Qed.

Lemma contains_app_r (sub pre s : str) :
  contains sub s = true → contains sub (pre ++ s) = true.
Proof.
  intros H. induction pre as [|a pre IH]; simpl; [done|].
  rewrite IH. apply orb_true_r.
Qed.

Lemma contains_middle (sub pre post : str) :
  contains sub (pre ++ sub ++ post) = true.
Proof. apply contains_app_r, contains_here. Qed.

Lemma contains_end (sub pre : str) : contains sub (pre ++ sub) = true.
Proof.
  rewrite <- (app_nil_r sub) at 2. apply contains_middle.
Qed.

Lemma contains_spec (sub s : str) :
  contains sub s = true ↔ ∃ pre post, s = pre ++ sub ++ post.
Proof.
  split.
  - induction s as [|c s IH]; simpl; intros H.
    + destruct sub; [|done]. by exists [], [].
    + apply orb_true_iff in H as [H|H].
      * apply (startswith_inv (c :: s)) in H. exists [], (drop (length sub) (c :: s)).
        exact H.
      * destruct (IH H) as (pre & post & ->). by exists (c :: pre), post.
  - intros (pre & post & ->). apply contains_middle.
Qed.

(** ** The two loops of [run_code] *)

Lemma tag_lengths :
  length (utf8 "IMAGE:") = 6%nat ∧ length (utf8 "INFO:") = 5%nat
  ∧ length (utf8 "EXEC_ERROR:") = 11%nat.
Proof. by vm_compute. Qed.

Lemma last_filter_cons {A} (P : A → Prop) `{∀ x, Decision (P x)} (x : A) (l : list A) :
  last (filter P (x :: l)) =
  match last (filter P l) with
  | Some y => Some y
  | None => if decide (P x) then Some x else None
  end.
Proof.
  rewrite filter_cons. destruct (decide (P x)); [|by destruct (last _)].
  by rewrite last_cons.
Qed.

Lemma stdout_loop (lines : list str) (image : option str) (logs_lines : list str) :
  fold_left stdout_line lines (image, logs_lines) =
  (match last_image lines with Some i => Some i | None => image end,
   logs_lines ++ stdout_log lines).
Proof.
  revert image logs_lines.
  induction lines as [|l lines IH]; intros image logs_lines.
  - simpl. by rewrite app_nil_r.
  - cbn [fold_left]. unfold last_image in *. rewrite last_filter_cons.
    unfold stdout_line at 2. unfold stdout_log. cbn [flat_map].
    fold (stdout_log lines). fold (is_image l). fold (is_info l).
    destruct tag_lengths as (-> & -> & _).
    destruct (is_image l) eqn:Ei.
    + rewrite IH. case_decide; try done.
      by destruct (last (filter _ lines)).
    + case_decide; try done.
      destruct (is_info l); rewrite IH, <- app_assoc;
        by destruct (last (filter _ lines)).
Qed.

Lemma stderr_loop (lines : list str) (logs_lines : list str) (error : str) :
  fold_left stderr_line lines (logs_lines, error) =
  (logs_lines ++ stderr_log lines,
   match last (filter (λ l, is_exec_error l = true) lines) with
   | Some l => _make_friendly_error (payload 11 l)
   | None => error
   end).
Proof.
  revert logs_lines error.
  induction lines as [|l lines IH]; intros logs_lines error.
  - simpl. by rewrite app_nil_r.
  - cbn [fold_left]. rewrite last_filter_cons.
    unfold stderr_line at 2. unfold stderr_log. rewrite filter_cons.
    fold (stderr_log lines). fold (is_exec_error l).
    destruct tag_lengths as (_ & _ & ->).
    destruct (is_exec_error l) eqn:Ee.
    + rewrite IH. repeat case_decide; try done.
      by destruct (last (filter _ lines)).
    + rewrite IH. repeat case_decide; try done.
      rewrite <- app_assoc. by destruct (last (filter _ lines)).
Qed.

(** The result of a normal exit, in the words of the specification. *)
Lemma parse_output_spec (out err : str) :
  parse_output out err =
  Result (last_image (splitlines (strip out)))
         (join [LF] (stdout_log (splitlines (strip out))
                     ++ stderr_log (splitlines (strip err))))
         (last_error (splitlines (strip err))).
Proof.
  unfold parse_output. rewrite stdout_loop. cbn [app].
  unfold last_error.
  destruct (strip err) eqn:Es.
  - cbn. rewrite app_nil_r. by destruct (last_image _).
  - rewrite stderr_loop.
    destruct (last (filter _ _)); by destruct (last_image _).
Qed.

(** ** File operations leave the processes and the registry alone *)

Lemma frame_refl w : frame w w.
Proof. exists (fs w). by destruct w. Qed.

Lemma frame_trans w1 w2 w3 : frame w1 w2 → frame w2 w3 → frame w1 w3.
Proof. intros [f ->] [g ->]. by exists g. Qed.

Lemma frame_set_fs f w : frame w (set_fs f w).
Proof. by exists (f (fs w)). Qed.

Lemma frame_fields w w' :
  frame w w' →
  procs w' = procs w ∧ next_pid w' = next_pid w ∧ registry w' = registry w
  ∧ watchers w' = watchers w ∧ trace w' = trace w.
Proof. by intros [f ->]. Qed.

Create HintDb fsop.
#[local] Hint Resolve frame_refl frame_set_fs : fsop.

Lemma is_OSError_not_timeout e : is_OSError e → not_timeout e.
Proof. by intros [m ->] t. Qed.

Lemma fsop_weaken {A} (P Q : exn → Prop) (m : M A) :
  (∀ e, P e → Q e) → fsop P m → fsop Q m.
Proof. intros HPQ Hm w. destruct (Hm w) as [? He]. split; [done|]. eauto. Qed.

Lemma fsop_ret {A} P (a : A) : fsop P (ret a).
Proof. intros w. split; [apply frame_refl|]. by intros e. Qed.

Lemma fsop_raise {A} (P : exn → Prop) e : P e → fsop P (raise (A:=A) e).
Proof. intros He w. split; [apply frame_refl|]. cbn. by intros ? [= <-]. Qed.

Lemma fsop_bind {A B} P (m : M A) (k : A → M B) :
  fsop P m → (∀ a, fsop P (k a)) → fsop P (bind m k).
Proof.
  intros Hm Hk w. unfold bind. destruct (Hm w) as [Hf He].
  destruct (m w) as [[a|e] w1]; cbn in *.
  - destruct (Hk a w1) as [Hf' He']. split; [by eapply frame_trans|done].
  - split; [done|]. intros e' [= <-]. by apply He.
Qed.

Lemma fsop_modify P f : fsop P (modify (set_fs f)).
Proof. intros w. split; [apply frame_set_fs|]. by intros e. Qed.

Lemma fsop_gets {A} P (f : world → A) : fsop P (gets f).
Proof. intros w. split; [apply frame_refl|]. by intros e. Qed.

Ltac fsop_prim :=
  intros w; cbv beta zeta delta [mkdtemp open_w unlink iterdir rmdir];
  repeat case_match; cbn [fst snd];
  (split; [auto with fsop | intros ? ?; simplify_eq; try done]).

Lemma fsop_mkdtemp env prefix : fsop is_OSError (mkdtemp env prefix).
Proof. fsop_prim; by eexists. Qed.

Lemma fsop_open_w env p : fsop not_timeout (open_w env p).
Proof. fsop_prim. Qed.

Lemma fsop_unlink env ok p : fsop is_OSError (unlink env ok p).
Proof. fsop_prim; by eexists. Qed.

Lemma fsop_iterdir env d : fsop is_OSError (iterdir env d).
Proof. fsop_prim; by eexists. Qed.

Lemma fsop_rmdir env d : fsop is_OSError (rmdir env d).
Proof. fsop_prim; by eexists. Qed.

Lemma fsop_write_text env p data : fsop not_timeout (write_text env p data).
Proof.
  apply fsop_bind; [apply fsop_open_w|]. intros _.
  destruct (existsb _ _); [by apply fsop_raise|apply fsop_modify].
Qed.

Lemma fsop_write_bytes env p data : fsop not_timeout (write_bytes env p data).
Proof.
  apply fsop_bind; [apply fsop_open_w|]. intros _. apply fsop_modify.
Qed.

Lemma fsop_write_each env run_dir files : fsop not_timeout (write_each env run_dir files).
Proof.
  induction files as [|[filename content] rest IH]; cbn [write_each].
  - apply fsop_ret.
  - destruct (path_name filename); [done|].
    apply fsop_bind; [apply fsop_write_bytes|done].
Qed.

Lemma fsop_write_uploaded_files env run_dir files :
  fsop not_timeout (_write_uploaded_files env run_dir files).
Proof.
  destruct files as [[|f files]|]; cbn [_write_uploaded_files];
    [apply fsop_ret|apply fsop_write_each|apply fsop_ret].
Qed.

Lemma fsop_unlink_files env cs : fsop is_OSError (unlink_files env cs).
Proof.
  induction cs as [|c cs IH]; cbn [unlink_files]; [apply fsop_ret|].
  apply fsop_bind; [apply fsop_gets|]. intros f.
  apply fsop_bind; [|done].
  destruct f; [apply fsop_unlink|apply fsop_ret].
Qed.

(** The removal is best effort: it never raises. *)
Lemma fsop_remove_run_dir env tmp_path run_dir :
  fsop (λ _, False) (remove_run_dir env tmp_path run_dir).
Proof.
  assert (fsop is_OSError (
    e <- exists_ tmp_path ;;
    (if e then unlink env false tmp_path else ret tt) ;;
    cs <- iterdir env run_dir ;;
    unlink_files env cs ;;
    rmdir env run_dir)) as H.
  { apply fsop_bind; [apply fsop_gets|]. intros e.
    apply fsop_bind; [destruct e; [apply fsop_unlink|apply fsop_ret]|]. intros _.
    apply fsop_bind; [apply fsop_iterdir|]. intros cs.
    apply fsop_bind; [apply fsop_unlink_files|]. intros _. apply fsop_rmdir. }
  intros w. unfold remove_run_dir, ignoring_OSError, try_except.
  destruct (H w) as [Hf He].
  destruct (bind (exists_ tmp_path) _ w) as [[[]|e] w1]; cbn in *; [by split|].
  destruct (He e eq_refl) as [m ->]. cbn. by split.
Qed.

(** ** The bounded runner, case by case *)

Lemma fsop_materialize env prefix code files :
  fsop not_timeout (materialize env prefix code files).
Proof.
  apply fsop_bind.
  { eapply fsop_weaken; [apply is_OSError_not_timeout|apply fsop_mkdtemp]. }
  intros d. apply fsop_bind; [apply fsop_write_text|]. intros _.
  apply fsop_bind; [apply fsop_write_uploaded_files|]. intros _. apply fsop_ret.
Qed.

Lemma subprocess_run_result env w :
  (result <- subprocess_run env TIMEOUT_SECONDS ;;
   ret (parse_output result.1 result.2)) w = (child_result env, w).
Proof.
  unfold child_result, subprocess_run, bind, ret, raise.
  destruct (bounded_child env); cbn [overruns]; try done.
  by destruct (_ <=? _).
Qed.

Lemma bind_eq {A B} (m : M A) (k : A → M B) w :
  bind m k w =
  match m w with
  | (Returned a, w') => k a w'
  | (Raised e, w') => (Raised e, w')
  end.
Proof. reflexivity. Qed.

Lemma bind_Returned_inv {A B} (m : M A) (k : A → M B) w b w2 :
  bind m k w = (Returned b, w2) →
  ∃ a w1, m w = (Returned a, w1) ∧ k a w1 = (Returned b, w2).
Proof. rewrite bind_eq. destruct (m w) as [[a|e] w1]; [eauto|done]. Qed.

Lemma bind_Raised_inv {A B} (m : M A) (k : A → M B) w e w2 :
  bind m k w = (Raised e, w2) →
  m w = (Raised e, w2)
  ∨ ∃ a w1, m w = (Returned a, w1) ∧ k a w1 = (Raised e, w2).
Proof. rewrite bind_eq. destruct (m w) as [[a|e'] w1]; [eauto|]. intros [= -> ->]. eauto. Qed.

Lemma run_code_body_launched env code files w d w1 :
  materialize env (utf8 "kata_run_") code files w = (Returned d, w1) →
  run_code_body env code files w = (child_result env, set_fs (rmtree d) w1).
Proof.
  intros H. unfold materialize in H.
  apply bind_Returned_inv in H as (d' & wa & Hd & H).
  apply bind_Returned_inv in H as ([] & wb & Ht & H).
  apply bind_Returned_inv in H as ([] & wc & Hu & H).
  unfold ret in H. simplify_eq.
  unfold run_code_body, with_TemporaryDirectory.
  rewrite bind_eq, Hd, bind_eq, Ht, bind_eq, Hu, subprocess_run_result. done.
Qed.

Lemma run_code_body_not_launched env code files w e w1 :
  materialize env (utf8 "kata_run_") code files w = (Raised e, w1) →
  ∃ w2, run_code_body env code files w = (Raised e, w2).
Proof.
  intros H. unfold materialize in H.
  unfold run_code_body, with_TemporaryDirectory. rewrite bind_eq.
  apply bind_Raised_inv in H as [H|(d & wa & Hd & H)]; rewrite ?H, ?Hd; [by eexists|].
  rewrite bind_eq.
  apply bind_Raised_inv in H as [H|([] & wb & Ht & H)]; rewrite ?H, ?Ht; [by eexists|].
  rewrite bind_eq.
  apply bind_Raised_inv in H as [H|([] & wc & Hu & H)]; rewrite ?H, ?Hu; [by eexists|].
  done.
Qed.

(** ** Error texts *)

Lemma TIMEOUT_MESSAGE_text :
  TIMEOUT_MESSAGE
  = utf8 "â± Execution timed out after 10 seconds. Check for infinite loops.".
Proof. by vm_compute. Qed.

Lemma existsb_filter_nil {A} (f : A → bool) (l : list A) :
  existsb f l = false → filter (λ x, f x = true) l = [].
Proof.
  induction l as [|x l IH]; [done|]. cbn [existsb]. intros H.
  apply orb_false_iff in H as [Hx Hl]. rewrite filter_cons, decide_False, IH; [done..|].
  by rewrite Hx.
Qed.

Lemma last_filter_None {A} (f : A → bool) (l : list A) :
  last (filter (λ x, f x = true) l) = None ↔ existsb f l = false.
Proof.
  rewrite last_None. split; [|apply existsb_filter_nil].
  induction l as [|x l IH]; [done|]. rewrite filter_cons. cbn [existsb].
  destruct (decide (f x = true)) as [Hx|Hx]; [done|].
  intros H. apply not_true_is_false in Hx. rewrite Hx. by apply IH.
Qed.

Local Opaque utf8 contains.

Lemma friendly_error_head (raw : str) :
  take 2 (_make_friendly_error raw) ≠ take 2 TIMEOUT_MESSAGE
  ∧ _make_friendly_error raw ≠ [].
Proof.
  unfold _make_friendly_error.
  repeat (match goal with |- context [contains ?p raw] => destruct (contains p raw) end;
          cbn [orb]).
  all: split; [by vm_compute | by destruct raw; vm_compute].
Qed.

Lemma friendly_error_not_timeout (raw : str) :
  _make_friendly_error raw ≠ TIMEOUT_MESSAGE.
Proof. intros H. apply (proj1 (friendly_error_head raw)). by rewrite H. Qed.

Lemma failed_not_timeout (m : str) :
  utf8 "Execution failed: " ++ m ≠ TIMEOUT_MESSAGE.
Proof. intros H. apply (f_equal (take 1)) in H. by vm_compute in H. Qed.

Lemma last_error_cases (lines : list str) :
  (existsb is_exec_error lines = false → last_error lines = [])
  ∧ last_error lines ≠ TIMEOUT_MESSAGE.
Proof.
  unfold last_error. split.
  - intros H. by rewrite existsb_filter_nil.
  - destruct (last _); cbn; [apply friendly_error_not_timeout|].
    intros H. by vm_compute in H.
Qed.

Lemma last_image_none (lines : list str) :
  existsb is_image lines = false → last_image lines = None.
Proof. intros H. unfold last_image. by rewrite existsb_filter_nil. Qed.

Lemma run_code_eq env code files w :
  run_code env code files w =
  match run_code_body env code files w with
  | (Returned r, w') => (Returned r, w')
  | (Raised (TimeoutExpired _), w') => (Returned (Result None [] TIMEOUT_MESSAGE), w')
  | (Raised e, w') =>
    (Returned (Result None [] (utf8 "Execution failed: " ++ exn_str e)), w')
  end.
Proof.
  unfold run_code, try_except.
  destruct (run_code_body _ _ _ w) as [[r|[]] w']; done.
Qed.

(** ** Uploaded files *)

Lemma split_no_sep (sep : N) (s : str) : Forall (λ c, sep ∉ c) (split sep s).
Proof.
  induction s as [|a s IH]; cbn [split].
  - repeat constructor. apply not_elem_of_nil.
  - destruct (a =? sep) eqn:E.
    + constructor; [apply not_elem_of_nil|done].
    + apply N.eqb_neq in E. destruct (split sep s) as [|l ls].
      * repeat constructor. intros [->%eq_sym| H%elem_of_nil]%elem_of_cons; done.
      * apply Forall_cons in IH as [Hl Hls]. constructor; [|done].
        intros [->%eq_sym|H]%elem_of_cons; done.
Qed.

Lemma path_name_no_slash (filename : str) : SLASH ∉ path_name filename.
Proof.
  unfold path_name, path_parts.
  destruct (last _) as [c|] eqn:E; cbn; [|apply not_elem_of_nil].
  apply last_Some_elem_of, list_elem_of_filter in E as [_ E].
  pose proof (split_no_sep SLASH filename) as H.
  rewrite Forall_forall in H. by apply H.
Qed.

Lemma split_plain (sep : N) (s : str) : sep ∉ s → split sep s = [s].
Proof.
  induction s as [|a s IH]; [done|]. intros [Ha Hs]%not_elem_of_cons.
  cbn [split]. rewrite (proj2 (N.eqb_neq a sep)) by done. by rewrite IH.
Qed.

Lemma path_name_not_dot (filename : str) : path_name filename ≠ utf8 ".".
Proof.
  unfold path_name, path_parts.
  destruct (last _) as [c|] eqn:E; cbn; [|by vm_compute].
  by apply last_Some_elem_of, list_elem_of_filter in E as [[_ ?] _].
Qed.







Lemma open_w_other env p w q :
  q ≠ p → fs (open_w env p w).2 !! q = fs w !! q.
Proof.
  intros Hq. unfold open_w. repeat case_match; cbn; try done.
  all: by rewrite lookup_insert_ne.
Qed.

Lemma write_bytes_other env p data w q :
  q ≠ p → fs (write_bytes env p data w).2 !! q = fs w !! q.
Proof.
  intros Hq. unfold write_bytes. rewrite bind_eq.
  pose proof (open_w_other env p w q Hq) as H.
  destruct (open_w env p w) as [[[]|e] w1]; cbn in *; [|done].
  by rewrite lookup_insert_ne.
Qed.

Lemma write_bytes_file env p data w w' :
  write_bytes env p data w = (Returned (), w') →
  fs w' !! p = Some (File (Binary data)).
Proof.
  unfold write_bytes. rewrite bind_eq.
  destruct (open_w env p w) as [[[]|e] w1]; [|done].
  intros [= <-]. cbn. by rewrite lookup_insert_eq.
Qed.






(** ** The registry *)

Lemma stop_local_outcome (w : world) :
  ∃ res w', stop_local w = (Returned res, w')
  ∧ fs w' = fs w ∧ next_pid w' = next_pid w ∧ watchers w' = watchers w
  ∧ registry w' = None
  ∧ match registry w with
    | None => res = NOT_RUNNING ∧ procs w' = procs w ∧ trace w' = trace w ++ TAKE
    | Some p =>
      match procs w !! p with
      | Some (Running b) | Some (Terminating b) =>
        res = STOPPED ∧ procs w' !! p = Some Exited
        ∧ (∀ q, q ≠ p → procs w' !! q = procs w !! q)
        ∧ trace w' = trace w ++ TAKE ++ STOPPING p b
      | Some Exited | None =>
        res = NOT_RUNNING ∧ procs w' = procs w ∧ trace w' = trace w ++ TAKE
      end
    end.
Proof.
  destruct w as [f pr np reg wa tr].
  unfold stop_local, acquire, reg_read, reg_write, release, poll_is_None, terminate,
    wait, kill, try_except, bind, ret, raise, modify, gets, log, set_registry, set_procs.
  cbn [fs procs next_pid registry watchers trace].
  destruct reg as [p|]; cbn [fs procs next_pid registry watchers trace].
  2: { eexists _, _. split; [reflexivity|]. cbn [fs procs next_pid registry watchers trace].
       do 4 (split; [reflexivity|]). split; [reflexivity|]. split; [reflexivity|].
       by rewrite <- !app_assoc. }
  destruct (pr !! p) as [[b|b|]|] eqn:Hp.
  3,4: eexists _, _; (split; [reflexivity|]);
    cbn [fs procs next_pid registry watchers trace];
    do 4 (split; [reflexivity|]); (split; [reflexivity|]); (split; [reflexivity|]);
    by rewrite <- !app_assoc.
  all: cbn [fs procs next_pid registry watchers trace];
    rewrite lookup_alter_eq, Hp; cbn [fmap option_fmap option_map].
  all: destruct b as [d|]; cbn [graceful STOPPING];
    [destruct (d <=? 1000 * 3) eqn:Hd|]; cbn [fs procs next_pid registry watchers trace].
  all: eexists _, _; (split; [reflexivity|]); cbn [fs procs next_pid registry watchers trace].
  all: do 4 (split; [reflexivity|]).
  all: split; [reflexivity|]; split;
    [|split; [|unfold STOPPING, graceful, TAKE; rewrite ?Hd, <- !app_assoc; reflexivity]].
  all: try by rewrite ?lookup_insert_eq, ?lookup_alter_eq, ?lookup_alter_eq, ?Hp.
  all: intros q Hq; by rewrite ?lookup_insert_ne, ?lookup_alter_ne, ?lookup_alter_ne.
Qed.

Lemma run_local_eq env code files w :
  run_local env code files w =
  match materialize env (utf8 "kata_live_") code files (stop_local w).2 with
  | (Raised e, w1) => (Raised e, w1)
  | (Returned d, w1) =>
    match foreground_child env with
    | SpawnFails m =>
      (Returned (Result None [] (utf8 "Failed to launch: " ++ m)),
       (remove_run_dir env (d ++ [utf8 "kata.py"]) d w1).2)
    | Spawns b => (Returned (Result None RUNNING_MESSAGE []), launched w1 d b)
    end
  end.
Proof.
  unfold run_local. rewrite bind_eq.
  destruct (stop_local_outcome w) as (res & w0 & -> & _). cbn [snd].
  unfold materialize. rewrite !(bind_eq (mkdtemp _ _)).
  destruct (mkdtemp env _ w0) as [[d|e] wa]; [|done].
  rewrite !(bind_eq (write_text _ _ _)).
  destruct (write_text env _ code wa) as [[[]|e] wb]; [|done].
  rewrite !(bind_eq (_write_uploaded_files _ _ _)).
  destruct (_write_uploaded_files env d files wb) as [[[]|e] wc]; [|done].
  change (ret d wc) with (Returned d, wc). cbn beta iota.
  unfold try_except. rewrite bind_eq. unfold Popen.
  destruct (foreground_child env) as [m|b].
  - destruct (fsop_remove_run_dir env (d ++ [utf8 "kata.py"]) d wc) as [_ He].
    rewrite bind_eq.
    destruct (remove_run_dir env _ d wc) as [[[]|e] wd]; [done|].
    by destruct (He e).
  - destruct wc as [f pr np reg wa' tr]. unfold launched, REGISTER.
    cbn. unfold set_watchers, log, set_registry. cbn. by rewrite <- !app_assoc.
Qed.

(** ** The invariant of the registry *)

Lemma well_locked_app (h : bool) (t1 t2 : list event) :
  well_locked h t1 = true → well_locked h (t1 ++ t2) = well_locked false t2.
Proof.
  revert h. induction t1 as [|e t1 IH]; intros h; cbn [well_locked app].
  - by destruct h.
  - destruct e, h; cbn; try done; apply IH.
Qed.

Lemma well_locked_stop (p : pid) (b : option N) :
  well_locked false TAKE = true ∧ well_locked false (TAKE ++ STOPPING p b) = true
  ∧ well_locked false (REGISTER p) = true.
Proof.
  repeat split; try done. unfold STOPPING. by destruct (graceful b).
Qed.

Lemma invariant_initial : invariant initial.
Proof. by split. Qed.

Lemma invariant_frame (w w' : world) : frame w w' → invariant w → invariant w'.
Proof. intros [f ->] [? ? ? ?]. by split. Qed.

Lemma quiescent_frame (w w' : world) : frame w w' → quiescent w → quiescent w'.
Proof. by intros [f ->] [? ?]. Qed.

Lemma alive_sigterm (st : pstate) :
  alive st = true → st = Running (sigterm_of st) ∨ st = Terminating (sigterm_of st).
Proof. destruct st; cbn; auto. done. Qed.

Lemma invariant_stop (w : world) :
  invariant w → invariant (stop_local w).2 ∧ quiescent (stop_local w).2.
Proof.
  intros [Hr Hf Hh Hl].
  destruct (stop_local_outcome w) as (res & w' & -> & _ & Hn & _ & Hreg & H).
  cbn [snd]. destruct (registry w) as [p|] eqn:Ereg.
  - destruct (procs w !! p) as [st|] eqn:Hp.
    + destruct (alive st) eqn:Ha.
      * assert (∃ b, res = STOPPED ∧ procs w' !! p = Some Exited
                  ∧ (∀ q, q ≠ p → procs w' !! q = procs w !! q)
                  ∧ trace w' = trace w ++ TAKE ++ STOPPING p b) as (b & _ & Hp' & Ho & Ht)
          by (destruct st; [eexists; apply H..|done]).
        assert (∀ q st', procs w' !! q = Some st' → alive st' = false ∧ q < next_pid w')
          as Hdead.
        { intros q st' Hq. rewrite Hn. destruct (decide (q = p)) as [->|Hqp].
          - rewrite Hp' in Hq. injection Hq as <-. split; [done|]. by eapply Hf.
          - rewrite Ho in Hq by done. split; [|by eapply Hf].
            destruct (alive st') eqn:Ha'; [|done].
            specialize (Hr _ _ Hq Ha'). congruence. }
        split; [split|split]; try done.
        -- intros q st' Hq Ha'. apply Hdead in Hq as [? _]. congruence.
        -- intros q st' Hq. by apply Hdead in Hq as [_ ?].
        -- intros q. by rewrite Hreg.
        -- rewrite Ht, well_locked_app by done. apply well_locked_stop.
        -- intros q st' Hq. by apply Hdead in Hq as [? _].
      * assert (res = NOT_RUNNING ∧ procs w' = procs w ∧ trace w' = trace w ++ TAKE)
          as (_ & Hp' & Ht) by (by destruct st).
        assert (∀ q st', procs w' !! q = Some st' → alive st' = false) as Hdead.
        { intros q st' Hq. rewrite Hp' in Hq.
          destruct (alive st') eqn:Ha'; [|done].
          specialize (Hr _ _ Hq Ha'). congruence. }
        split; [split|split]; try done.
        -- intros q st' Hq Ha'. apply Hdead in Hq. congruence.
        -- intros q st' Hq. rewrite Hn. rewrite Hp' in Hq. by eapply Hf.
        -- intros q. by rewrite Hreg.
        -- rewrite Ht, well_locked_app by done. apply (well_locked_stop 0 None).
    + destruct H as (_ & Hp' & Ht).
      assert (∀ q st', procs w' !! q = Some st' → alive st' = false) as Hdead.
      { intros q st' Hq. rewrite Hp' in Hq.
        destruct (alive st') eqn:Ha'; [|done].
        specialize (Hr _ _ Hq Ha'). congruence. }
      split; [split|split]; try done.
      * intros q st' Hq Ha'. apply Hdead in Hq. congruence.
      * intros q st' Hq. rewrite Hn. rewrite Hp' in Hq. by eapply Hf.
      * intros q. by rewrite Hreg.
      * rewrite Ht, well_locked_app by done. apply (well_locked_stop 0 None).
  - destruct H as (_ & Hp' & Ht).
    assert (∀ q st', procs w' !! q = Some st' → alive st' = false) as Hdead.
    { intros q st' Hq. rewrite Hp' in Hq.
      destruct (alive st') eqn:Ha'; [|done].
      specialize (Hr _ _ Hq Ha'). congruence. }
    split; [split|split]; try done.
    + intros q st' Hq Ha'. apply Hdead in Hq. congruence.
    + intros q st' Hq. rewrite Hn. rewrite Hp' in Hq. by eapply Hf.
    + intros q. by rewrite Hreg.
    + rewrite Ht, well_locked_app by done. apply (well_locked_stop 0 None).
Qed.

Lemma invariant_launched (w : world) (d : path) (b : option N) :
  invariant w → quiescent w → invariant (launched w d b).
Proof.
  intros [Hr Hf Hh Hl] [Hq Hdead]. split; unfold launched; cbn.
  - intros p st Hp Ha. destruct (decide (p = next_pid w)) as [->|Hne]; [done|].
    rewrite lookup_insert_ne in Hp by done. apply Hdead in Hp. congruence.
  - intros p st Hp. destruct (decide (p = next_pid w)) as [->|Hne]; [lia|].
    rewrite lookup_insert_ne in Hp by done. apply Hf in Hp. lia.
  - intros p [= <-]. rewrite lookup_insert_eq. by eexists.
  - rewrite well_locked_app by done. apply (well_locked_stop _ None).
Qed.

Lemma invariant_run_local env code files (w : world) :
  invariant w → invariant (run_local env code files w).2.
Proof.
  intros Hi. rewrite run_local_eq.
  destruct (invariant_stop w Hi) as [Hi0 Hq0].
  destruct (fsop_materialize env (utf8 "kata_live_") code files (stop_local w).2)
    as [Hfr _].
  destruct (materialize env _ code files (stop_local w).2) as [[d|e] w1]; cbn [snd] in *.
  - destruct (foreground_child env) as [m|b]; cbn [snd].
    + destruct (fsop_remove_run_dir env (d ++ [utf8 "kata.py"]) d w1) as [Hfr' _].
      eapply invariant_frame; [exact Hfr'|]. by eapply invariant_frame.
    + apply invariant_launched; [by eapply invariant_frame|by eapply quiescent_frame].
  - by eapply invariant_frame.
Qed.

Lemma invariant_child_exits (p : pid) (w : world) :
  invariant w → invariant (child_exits p w).
Proof.
  intros [Hr Hf Hh Hl]. unfold child_exits.
  destruct (procs w !! p) as [[b|b|]|] eqn:Hp; try done.
  split; cbn; try done.
  - intros q st Hq Ha. destruct (decide (q = p)) as [->|Hne].
    + rewrite lookup_insert_eq in Hq. by injection Hq as <-.
    + rewrite lookup_insert_ne in Hq by done. by eapply Hr.
  - intros q st Hq. destruct (decide (q = p)) as [->|Hne]; [by eapply Hf|].
    rewrite lookup_insert_ne in Hq by done. by eapply Hf.
  - intros q Hq. destruct (decide (q = p)) as [->|Hne].
    + rewrite lookup_insert_eq. by eexists.
    + rewrite lookup_insert_ne by done. by apply Hh.
Qed.

Lemma cleanup_outcome env (p : pid) (run_dir : path) (w : world) :
  ∃ w1, frame w1 (_cleanup env p run_dir w).2
  ∧ fs w1 = fs w ∧ procs w1 = procs w ∧ next_pid w1 = next_pid w
  ∧ watchers w1 = watchers w
  ∧ registry w1 = (if decide (registry w = Some p) then None else registry w)
  ∧ trace w1 = trace w ++ [Acquire; RegRead]
               ++ (if decide (registry w = Some p) then [RegWrite None] else [])
               ++ [Release].
Proof.
  destruct w as [f pr np reg wa tr].
  cbn [fs procs next_pid registry watchers trace].
  unfold _cleanup, acquire, reg_read, reg_write, release, bind, ret, modify, log,
    set_registry.
  cbn [fs procs next_pid registry watchers trace].
  destruct (decide (reg = Some p)) as [->|Hne].
  - rewrite bool_decide_eq_true_2 by done.
    cbn [fs procs next_pid registry watchers trace].
    eexists; (split; [apply fsop_remove_run_dir|]).
    cbn [fs procs next_pid registry watchers trace].
    do 5 (split; [reflexivity|]). by rewrite <- !app_assoc.
  - rewrite bool_decide_eq_false_2 by done.
    cbn [fs procs next_pid registry watchers trace].
    eexists; (split; [apply fsop_remove_run_dir|]).
    cbn [fs procs next_pid registry watchers trace].
    do 5 (split; [reflexivity|]). by rewrite <- !app_assoc.
Qed.

Lemma invariant_cleanup_runs env (p : pid) (w : world) :
  invariant w → invariant (cleanup_runs env p w).
Proof.
  intros Hi. unfold cleanup_runs.
  destruct (procs w !! p) as [[b|b|]|] eqn:Hp; try done.
  destruct (list_find _ _) as [[i [p' run_dir]]|]; [|done].
  destruct (cleanup_outcome env p run_dir (set_watchers (delete i) w))
    as (w1 & Hfr & Hfs & Hpr & Hnp & Hwa & Hreg & Htr).
  eapply invariant_frame; [exact Hfr|].
  destruct Hi as [Hr Hf Hh Hl]. cbn in *. split.
  - intros q st Hq Ha. rewrite Hpr in Hq. rewrite Hreg.
    specialize (Hr _ _ Hq Ha). rewrite decide_False; [done|].
    intros E. rewrite E in Hr. injection Hr as ->. rewrite Hp in Hq.
    by injection Hq as <-.
  - intros q st Hq. rewrite Hpr in Hq. rewrite Hnp. by eapply Hf.
  - intros q Hq. rewrite Hpr. rewrite Hreg in Hq.
    destruct (decide _); [done|]. by apply Hh.
  - rewrite Htr, well_locked_app by done. by destruct (decide _).
Qed.

Lemma invariant_step (w : world) (o : op) : invariant w → invariant (step w o).
Proof.
  intros Hi. destruct o as [env code files| |p|env p]; cbn [step].
  - by apply invariant_run_local.
  - by apply invariant_stop.
  - by apply invariant_child_exits.
  - by apply invariant_cleanup_runs.
Qed.

Lemma invariant_run_ops (ops : list op) : invariant (run_ops ops).
Proof.
  unfold run_ops. induction ops as [|o ops IH] using rev_ind.
  - apply invariant_initial.
  - rewrite fold_left_app. by apply invariant_step.
Qed.

Local Opaque utf8 contains.
Local Arguments utf8 : simpl never.
Local Arguments contains : simpl never.

(** * The claims of the specification *)

(** ** The bounded runner *)

(** C1.  Whatever the source, the uploaded files and the behaviour of the
    system, [run_code] returns a result and raises nothing.  A fault while
    the scratch directory is filled, a child that cannot be started or
    whose output cannot be decoded, and a child that outlives the deadline
    all end in a result without image and logs whose error field is not
    empty: the timeout text for the deadline, [Execution failed:] followed
    by the text of the exception otherwise. *)
Theorem run_code_never_raises env code files w :
  ∃ r w', run_code env code files w = (Returned r, w')
  ∧ (∀ e, (materialize env (utf8 "kata_run_") code files w).1 = Raised e →
       r = Result None [] (utf8 "Execution failed: " ++ exn_str e))
  ∧ (∀ d, (materialize env (utf8 "kata_run_") code files w).1 = Returned d →
       (∀ m, bounded_child env = CannotStart m →
          r = Result None [] (utf8 "Execution failed: " ++ m))
       ∧ (∀ m, bounded_child env = Undecodable m →
          r = Result None [] (utf8 "Execution failed: " ++ m))
       ∧ (overruns (bounded_child env) = true →
          r = Result None [] TIMEOUT_MESSAGE))
  ∧ (∀ e, (run_code_body env code files w).1 = Raised e →
       image_b64 r = None ∧ logs r = [] ∧ error r ≠ []).
Proof.
  rewrite run_code_eq.
  destruct (materialize env (utf8 "kata_run_") code files w) as [[d|e] w1] eqn:Hm.
  - rewrite (run_code_body_launched _ _ _ _ _ _ Hm). unfold child_result.
    destruct (bounded_child env) as [m|m|t out err|] eqn:Hc; cbn [overruns];
      [| |destruct (negb _) eqn:Ho|]; eexists _, _; (split; [done|]).
    all: split; [by intros e|]; split.
    all: try (intros d' _; cbn [overruns]; repeat split; intros; simplify_eq;
              done).
    all: intros e [= <-]; repeat split; try done; cbn [error]; intros H;
      apply (f_equal length) in H; by vm_compute in H.
  - destruct (run_code_body_not_launched _ _ _ _ _ _ Hm) as [w2 Hb]. rewrite Hb.
    destruct (fsop_materialize env (utf8 "kata_run_") code files w) as [_ Hnt].
    specialize (Hnt e). rewrite Hm in Hnt. specialize (Hnt eq_refl).
    destruct e as [t|m|m]; [by destruct (Hnt t)|..]; eexists _, _; (split; [done|]).
    all: split; [by intros e [= <-]|]; split; [by intros d|].
    all: intros e [= <-]; repeat split; try done; cbn [error]; intros H;
      apply (f_equal length) in H; by vm_compute in H.
Qed.

Lemma run_code_never_raises_witness :
  (materialize disk_full (utf8 "kata_run_") (utf8 "print(1)") None initial).1
  = Raised (OSError NO_SPACE)
  ∧ (materialize (env_of (CannotStart NO_PYTHON)) (utf8 "kata_run_") (utf8 "print(1)")
       None initial).1 = Returned sample_dir
  ∧ (run_code disk_full (utf8 "print(1)") None initial).1
    = Returned (Result None [] (utf8 "Execution failed: " ++ NO_SPACE))
  ∧ (run_code (env_of (CannotStart NO_PYTHON)) (utf8 "print(1)") None initial).1
    = Returned (Result None [] (utf8 "Execution failed: " ++ NO_PYTHON)).
Proof.
  assert ((materialize disk_full (utf8 "kata_run_") (utf8 "print(1)") None initial).1
          = Raised (OSError NO_SPACE)) as Hm by (vm_compute; reflexivity).
  assert ((materialize (env_of (CannotStart NO_PYTHON)) (utf8 "kata_run_")
             (utf8 "print(1)") None initial).1 = Returned sample_dir) as Hm'
    by (vm_compute; reflexivity).
  split; [exact Hm|]. split; [exact Hm'|]. split.
  - destruct (run_code_never_raises disk_full (utf8 "print(1)") None initial)
      as (r & w' & Hr & H & _).
    rewrite Hr. cbn [fst]. f_equal. exact (H _ Hm).
  - destruct (run_code_never_raises (env_of (CannotStart NO_PYTHON)) (utf8 "print(1)")
                None initial) as (r & w' & Hr & _ & H & _).
    rewrite Hr. cbn [fst]. f_equal. exact (proj1 (H _ Hm') _ eq_refl).
Defined.

(** C6.  When the scratch directory has been filled and the child is still
    running after [TIMEOUT_SECONDS] seconds, [run_code] returns no image,
    empty logs and the fixed text
    [Execution timed out after 10 seconds. Check for infinite loops.]
    behind its sign; and a result with that error text comes from such a
    run only: every other error is built from the child's stderr or from
    the text of an exception. *)
Theorem run_code_timeout env code files w :
  (∀ d, (materialize env (utf8 "kata_run_") code files w).1 = Returned d →
     overruns (bounded_child env) = true →
     run_code env code files w
     = (Returned (Result None [] TIMEOUT_MESSAGE),
        set_fs (rmtree d) (materialize env (utf8 "kata_run_") code files w).2))
  ∧ (∀ r w', run_code env code files w = (Returned r, w') →
       error r = TIMEOUT_MESSAGE →
       overruns (bounded_child env) = true
       ∧ ∃ d, (materialize env (utf8 "kata_run_") code files w).1 = Returned d)
  ∧ TIMEOUT_MESSAGE
    = utf8 "â± Execution timed out after 10 seconds. Check for infinite loops."
  ∧ contains (decimal TIMEOUT_SECONDS ++ utf8 " seconds") TIMEOUT_MESSAGE = true
  ∧ contains (utf8 "Check for infinite loops") TIMEOUT_MESSAGE = true.
Proof.
  split; [|split; [|split; [apply TIMEOUT_MESSAGE_text|by vm_compute]]].
  - intros d Hd Ho.
    destruct (materialize env (utf8 "kata_run_") code files w) as [o w1] eqn:Hm.
    cbn in Hd. subst o.
    rewrite run_code_eq, (run_code_body_launched _ _ _ _ _ _ Hm).
    unfold child_result. destruct (bounded_child env); try done.
    cbn [overruns] in *. by rewrite Ho.
  - intros r w' Hr He. rewrite run_code_eq in Hr.
    destruct (materialize env (utf8 "kata_run_") code files w) as [[d|e] w1] eqn:Hm.
    + rewrite (run_code_body_launched _ _ _ _ _ _ Hm) in Hr.
      split; [|by eauto]. unfold child_result in Hr.
      destruct (bounded_child env) as [m|m|t out err|]; cbn [overruns] in *;
        try destruct (negb _); simplify_eq; try done; cbn [error] in He.
      all: first [ by apply failed_not_timeout in He
                 | rewrite parse_output_spec in He; cbn [error] in He;
                   by apply last_error_cases in He ].
    + destruct (run_code_body_not_launched _ _ _ _ _ _ Hm) as [w2 Hb].
      rewrite Hb in Hr.
      destruct (fsop_materialize env (utf8 "kata_run_") code files w) as [_ Hnt].
      specialize (Hnt e). rewrite Hm in Hnt. specialize (Hnt eq_refl).
      destruct e; simplify_eq; cbn [error] in He;
        [by destruct (Hnt timeout)|by apply failed_not_timeout in He..].
Qed.

Lemma run_code_timeout_witness :
  (materialize (env_of Hangs) (utf8 "kata_run_") (utf8 "while True: pass") None
     initial).1 = Returned sample_dir
  ∧ overruns (bounded_child (env_of Hangs)) = true
  ∧ (run_code (env_of Hangs) (utf8 "while True: pass") None initial).1
    = Returned (Result None [] TIMEOUT_MESSAGE).
Proof.
  assert ((materialize (env_of Hangs) (utf8 "kata_run_") (utf8 "while True: pass") None
             initial).1 = Returned sample_dir) as Hm by (vm_compute; reflexivity).
  assert (overruns (bounded_child (env_of Hangs)) = true) as Ho by reflexivity.
  split; [exact Hm|]. split; [exact Ho|].
  by rewrite (proj1 (run_code_timeout _ _ _ _) _ Hm Ho).
Defined.

(** C3, as the code has it.  Image and error exclude each other in every
    result of [run_code] unless the scratch directory was filled and the
    child exited within the deadline having printed both an [IMAGE:] line
    on its stdout and an [EXEC_ERROR:] line on its stderr (both trimmed).
    In every other case, also that of a child that prints both too late
    or is never started, a non-empty error comes with no image, and an
    image with an empty error.  In that case the result carries both: the
    image is the remainder of the last [IMAGE:] line, and the error is the
    translation of the last [EXEC_ERROR:] line, which is not empty. *)
Theorem run_code_field_discipline env code files w r :
  (run_code env code files w).1 = Returned r →
  (prints_both_in_time env code files w = false →
     (error r ≠ [] → has_image r = false) ∧ (has_image r = true → error r = []))
  ∧ (prints_both_in_time env code files w = true →
     ∃ after_ms out err iline eline,
       bounded_child env = Exits after_ms out err
       ∧ after_ms ≤ 1000 * TIMEOUT_SECONDS
       ∧ last (filter (λ l, is_image l = true) (splitlines (strip out))) = Some iline
       ∧ last (filter (λ l, is_exec_error l = true) (splitlines (strip err)))
         = Some eline
       ∧ image_b64 r = Some (payload 6 iline)
       ∧ error r = _make_friendly_error (payload 11 eline)
       ∧ error r ≠ []).
Proof.
  intros Hr. rewrite run_code_eq in Hr. unfold prints_both_in_time.
  destruct (materialize env (utf8 "kata_run_") code files w) as [[d|e] w1] eqn:Hm;
    cbn [fst].
  - rewrite (run_code_body_launched _ _ _ _ _ _ Hm) in Hr. unfold child_result in Hr.
    destruct (bounded_child env) as [m|m|t out err|] eqn:Hc;
      cbn [overruns emits_both negb andb] in *.
    1,2,4: cbn in Hr; simplify_eq; split; [done|];
           rewrite ?andb_false_r; done.
    destruct (t <=? 1000 * TIMEOUT_SECONDS) eqn:Ht; cbn [negb andb] in *.
    + injection Hr as <-. rewrite parse_output_spec. cbn [error image_b64]. split.
      * intros Hb. unfold has_image. cbn [image_b64].
        apply andb_false_iff in Hb as [Hi|He].
        -- by rewrite (last_image_none _ Hi).
        -- by rewrite (proj1 (last_error_cases _) He).
      * intros Hb. apply andb_true_iff in Hb as [Hi He].
        unfold last_image, last_error.
        destruct (last (filter (λ l, is_image l = true) _)) as [iline|] eqn:Ei.
        2: { apply last_filter_None in Ei. congruence. }
        destruct (last (filter (λ l, is_exec_error l = true) _)) as [eline|] eqn:Ee.
        2: { apply last_filter_None in Ee. congruence. }
        exists t, out, err, iline, eline. cbn.
        split; [done|]. split; [by apply N.leb_le|]. do 4 (split; [done|]).
        apply friendly_error_head.
    + cbn in Hr. simplify_eq. split; [done|done].
  - destruct (run_code_body_not_launched _ _ _ _ _ _ Hm) as [w2 Hb'].
    rewrite Hb' in Hr. split; [|done]. by destruct e; cbn in Hr; simplify_eq.
Qed.

Lemma run_code_field_discipline_witness :
  (run_code (env_of late_both) (utf8 "print(x)") None initial).1
  = Returned (Result None [] TIMEOUT_MESSAGE)
  ∧ prints_both_in_time (env_of late_both) (utf8 "print(x)") None initial = false
  ∧ has_image (Result None [] TIMEOUT_MESSAGE) = false
  ∧ (run_code (env_of image_then_error) (utf8 "print(x)") None initial).1
    = Returned image_then_error_result
  ∧ prints_both_in_time (env_of image_then_error) (utf8 "print(x)") None initial = true
  ∧ is_Some (image_b64 image_then_error_result)
  ∧ error image_then_error_result ≠ [].
Proof.
  assert ((run_code (env_of late_both) (utf8 "print(x)") None initial).1
          = Returned (Result None [] TIMEOUT_MESSAGE)) as Hr by (vm_compute; reflexivity).
  assert (prints_both_in_time (env_of late_both) (utf8 "print(x)") None initial = false)
    as Hb by (vm_compute; reflexivity).
  assert (error (Result None [] TIMEOUT_MESSAGE) ≠ []) as He
    by (vm_compute; discriminate).
  assert ((run_code (env_of image_then_error) (utf8 "print(x)") None initial).1
          = Returned image_then_error_result) as Hr' by (vm_compute; reflexivity).
  assert (prints_both_in_time (env_of image_then_error) (utf8 "print(x)") None initial
          = true) as Hb' by (vm_compute; reflexivity).
  split; [exact Hr|]. split; [exact Hb|].
  split; [exact (proj1 (proj1 (run_code_field_discipline _ _ _ _ _ Hr) Hb) He)|].
  split; [exact Hr'|]. split; [exact Hb'|].
  destruct (proj2 (run_code_field_discipline _ _ _ _ _ Hr') Hb')
    as (t & out & err & iline & eline & _ & _ & _ & _ & Hi & _ & Hne).
  split; [rewrite Hi; by eexists|exact Hne].
Defined.

(** C3, as the specification states it, fails: a child that prints an
    image and then an [EXEC_ERROR:] line gives a result with both. *)
Lemma run_code_image_and_error :
  (run_code (env_of image_then_error) (utf8 "cv2.imshow('a', img); x") None initial).1
  = Returned image_then_error_result
  ∧ error image_then_error_result ≠ []
  ∧ has_image image_then_error_result = true
  ∧ ¬ ((error image_then_error_result ≠ [] → has_image image_then_error_result = false)
       ∧ (has_image image_then_error_result = true → error image_then_error_result = [])).
Proof.
  assert (error image_then_error_result ≠ []) as He by (vm_compute; discriminate).
  split; [vm_compute; reflexivity|]. split; [exact He|]. split; [reflexivity|].
  intros [H _]. specialize (H He). vm_compute in H. discriminate.
Qed.

Lemma run_code_exits env code files w d after_ms out err :
  (materialize env (utf8 "kata_run_") code files w).1 = Returned d →
  bounded_child env = Exits after_ms out err →
  after_ms ≤ 1000 * TIMEOUT_SECONDS →
  run_code env code files w
  = (Returned (parse_output out err),
     set_fs (rmtree d) (materialize env (utf8 "kata_run_") code files w).2).
Proof.
  intros Hd Hc Ht.
  destruct (materialize env (utf8 "kata_run_") code files w) as [o w1] eqn:Hm.
  cbn in Hd. subst o.
  rewrite run_code_eq, (run_code_body_launched _ _ _ _ _ _ Hm).
  unfold child_result. rewrite Hc. cbn [overruns].
  apply N.leb_le in Ht. by rewrite Ht.
Qed.

(** C4, as the code has it.  When the child exits in time, its stdout is
    first trimmed of leading and trailing whitespace and then cut into
    lines, and these lines are read one by one: the image is the
    remainder of the last line that starts with [IMAGE:], and the log
    takes, in order, the remainder of each [INFO:] line and every other
    line as it is (followed by what stderr adds). *)
Theorem run_code_stdout_lines env code files w d after_ms out err :
  (materialize env (utf8 "kata_run_") code files w).1 = Returned d →
  bounded_child env = Exits after_ms out err →
  after_ms ≤ 1000 * TIMEOUT_SECONDS →
  (run_code env code files w).1 = Returned (parse_output out err)
  ∧ image_b64 (parse_output out err) = last_image (splitlines (strip out))
  ∧ logs (parse_output out err)
    = join [LF] (stdout_log (splitlines (strip out))
                 ++ stderr_log (splitlines (strip err))).
Proof.
  intros Hm Hc Ht. split; [by erewrite run_code_exits|].
  by rewrite parse_output_spec.
Qed.

Lemma run_code_stdout_lines_witness :
  (materialize (env_of mixed_output) (utf8 "kata_run_") (utf8 "print('plain')") None
     initial).1 = Returned sample_dir
  ∧ 200 ≤ 1000 * TIMEOUT_SECONDS
  ∧ (run_code (env_of mixed_output) (utf8 "print('plain')") None initial).1
    = Returned mixed_result
  ∧ image_b64 mixed_result = Some (utf8 "c2Vjb25k")
  ∧ logs mixed_result
    = utf8 "step 1" ++ [LF] ++ utf8 "plain" ++ [LF] ++ utf8 "warning: slow".
Proof.
  assert ((materialize (env_of mixed_output) (utf8 "kata_run_") (utf8 "print('plain')")
             None initial).1 = Returned sample_dir) as Hm by (vm_compute; reflexivity).
  assert (200 ≤ 1000 * TIMEOUT_SECONDS) as Ht by (vm_compute; discriminate).
  split; [exact Hm|]. split; [exact Ht|].
  destruct (run_code_stdout_lines _ _ _ _ _ _ _ _ Hm eq_refl Ht) as (Hr & Hi & Hl).
  split; [rewrite Hr; vm_compute; reflexivity|].
  split; reflexivity.
Defined.

(** C4, as the specification states it, fails on the lines of the stream
    itself.  The child prints an indented line without tag and an
    [IMAGE:] line that ends in a blank; the log does not hold the first
    line as it is, and the image is not the whole remainder of the
    second. *)
Lemma run_code_lines_not_verbatim :
  bounded_child (env_of indented_output)
  = Exits 200 (utf8 "  indented" ++ [LF] ++ utf8 "IMAGE:aGVsbG8= " ++ [LF]) []
  ∧ splitlines (utf8 "  indented" ++ [LF] ++ utf8 "IMAGE:aGVsbG8= " ++ [LF])
    = [utf8 "  indented"; utf8 "IMAGE:aGVsbG8= "]
  ∧ (run_code (env_of indented_output) (utf8 "print('  indented')") None initial).1
    = Returned indented_result
  ∧ logs indented_result
    ≠ join [LF] (stdout_log [utf8 "  indented"; utf8 "IMAGE:aGVsbG8= "])
  ∧ image_b64 indented_result
    ≠ last_image [utf8 "  indented"; utf8 "IMAGE:aGVsbG8= "].
Proof.
  split; [reflexivity|]. split; [vm_compute; reflexivity|].
  split; [vm_compute; reflexivity|].
  split; vm_compute; discriminate.
Qed.



(** ** The error translator *)

(** C5.  The translator is a function of the raw message alone.  It
    applies the first category, in the fixed order blocked import, syntax
    error, undefined name, type mismatch, attribute error, one of whose
    substrings occurs in the raw message, and only that one; its output
    always contains the raw message; a message that matches no category is
    the raw message behind the generic prefix; and a message that contains
    [ImportError] is answered with the sentence that only [import cv2] and
    [import numpy as np] are allowed. *)
Theorem make_friendly_error_first_match (raw : str) :
  _make_friendly_error raw = translate_first_match raw
  ∧ contains raw (_make_friendly_error raw) = true
  ∧ (Forall (λ c, matches raw c = false) categories →
     _make_friendly_error raw = GENERIC_PREFIX ++ raw)
  ∧ (contains (utf8 "ImportError") raw = true →
     contains ALLOWED_IMPORTS (_make_friendly_error raw) = true).
Proof.
  unfold _make_friendly_error, translate_first_match, categories, matches.
  rewrite !Forall_cons, Forall_nil.
  unfold blocked_import, syntax_error, undefined_name, type_mismatch, attribute_error.
  cbn [find patterns render existsb].
  rewrite !orb_false_r.
  fold ALLOWED_IMPORTS. fold GENERIC_PREFIX.
  destruct (contains (utf8 "ImportError") raw) eqn:E1.
  all: destruct (contains (utf8 "ModuleNotFoundError") raw) eqn:E2.
  all: cbn [orb render].
  4: destruct (contains (utf8 "SyntaxError") raw) eqn:E3.
  5: destruct (contains (utf8 "NameError") raw) eqn:E4.
  6: destruct (contains (utf8 "TypeError") raw) eqn:E5.
  7: destruct (contains (utf8 "AttributeError") raw) eqn:E6.
  all: cbn [render].
  all: split; [reflexivity|].
  all: split; [first [apply contains_middle | apply contains_end]|].
  all: split; [intros (?&?&?&?&?&?); congruence|].
  all: intros HI; try discriminate.
  all: rewrite !app_assoc; apply contains_end.
Qed.

Lemma make_friendly_error_first_match_witness :
  contains (utf8 "ImportError") (utf8 "ImportError: cv2") = true
  ∧ contains ALLOWED_IMPORTS (_make_friendly_error (utf8 "ImportError: cv2")) = true
  ∧ Forall (λ c, matches (utf8 "ZeroDivisionError: division by zero") c = false)
      categories
  ∧ _make_friendly_error (utf8 "ZeroDivisionError: division by zero")
    = GENERIC_PREFIX ++ utf8 "ZeroDivisionError: division by zero".
Proof.
  assert (contains (utf8 "ImportError") (utf8 "ImportError: cv2") = true) as Hi
    by (vm_compute; reflexivity).
  assert (Forall (λ c, matches (utf8 "ZeroDivisionError: division by zero") c = false)
            categories) as Hf
    by (repeat constructor; vm_compute; reflexivity).
  split; [exact Hi|].
  split; [exact (proj2 (proj2 (proj2 (make_friendly_error_first_match _))) Hi)|].
  split; [exact Hf|].
  exact (proj1 (proj2 (proj2 (make_friendly_error_first_match _))) Hf).
Defined.

(** ** Uploaded files *)



(** ** The foreground runner: launch faults *)

Lemma run_local_materialize_fault env code files w e :
  (materialize env (utf8 "kata_live_") code files (stop_local w).2).1 = Raised e →
  (run_local env code files w).1 = Raised e
  ∧ registry (run_local env code files w).2 = None.
Proof.
  intros H. rewrite run_local_eq.
  destruct (stop_local_outcome w) as (res & w0 & Hs & _ & _ & _ & Hreg & _).
  rewrite Hs in *. cbn [snd] in *.
  destruct (fsop_materialize env (utf8 "kata_live_") code files w0) as [Hfr _].
  destruct (materialize env _ code files w0) as [[d|e'] w1]; cbn [fst snd] in *; [done|].
  apply frame_fields in Hfr as (_ & _ & -> & _). by simplify_eq.
Qed.

Lemma run_local_spawn_fault env code files w d m :
  (materialize env (utf8 "kata_live_") code files (stop_local w).2).1 = Returned d →
  foreground_child env = SpawnFails m →
  (run_local env code files w).1
  = Returned (Result None [] (utf8 "Failed to launch: " ++ m))
  ∧ registry (run_local env code files w).2 = None.
Proof.
  intros H Hc. rewrite run_local_eq.
  destruct (stop_local_outcome w) as (res & w0 & Hs & _ & _ & _ & Hreg & _).
  rewrite Hs in *. cbn [snd] in *.
  destruct (fsop_materialize env (utf8 "kata_live_") code files w0) as [Hfr _].
  destruct (materialize env _ code files w0) as [[d'|e'] w1]; cbn [fst snd] in *; [|done].
  rewrite Hc. cbn [fst snd]. split; [done|].
  destruct (fsop_remove_run_dir env (d' ++ [utf8 "kata.py"]) d' w1) as [Hfr' _].
  apply frame_fields in Hfr as (_ & _ & Hr1 & _).
  apply frame_fields in Hfr' as (_ & _ & -> & _). congruence.
Qed.

(** C2, where the code departs from it.  An uploaded file named [..] makes
    the write into the scratch directory fail; [run_local] then raises the
    exception to its caller instead of returning a result, and leaves the
    directory with the source file behind.  [run_code], given the same
    input, returns a result whose error reports the failure. *)
Theorem run_local_upload_fault_escapes :
  (run_local (env_of Hangs) (utf8 "cv2.VideoCapture(0)") dotdot_upload initial).1
  = Raised EISDIR
  ∧ fs (run_local (env_of Hangs) (utf8 "cv2.VideoCapture(0)") dotdot_upload initial).2
    !! live_dir = Some Dir
  ∧ fs (run_local (env_of Hangs) (utf8 "cv2.VideoCapture(0)") dotdot_upload initial).2
    !! (live_dir ++ [utf8 "kata.py"]) = Some (File (Text (utf8 "cv2.VideoCapture(0)")))
  ∧ registry
      (run_local (env_of Hangs) (utf8 "cv2.VideoCapture(0)") dotdot_upload initial).2
    = None
  ∧ (run_code (env_of Hangs) (utf8 "cv2.VideoCapture(0)") dotdot_upload initial).1
    = Returned (Result None [] (utf8 "Execution failed: [Errno 21] Is a directory"))
  ∧ fs (run_code (env_of Hangs) (utf8 "cv2.VideoCapture(0)") dotdot_upload initial).2
    = ∅.
Proof.
  split; [vm_compute; reflexivity|]. split; [vm_compute; reflexivity|].
  split; [vm_compute; reflexivity|]. split; [vm_compute; reflexivity|].
  split; vm_compute; reflexivity.
Qed.

(** ** The process registry *)

(** C7, as the code has it.  [stop_local] never raises.  It first takes
    the handle and clears the registry between one acquire and release of
    the lock, and the registry is empty afterwards in every case.  With no
    handle it returns [stopped = False] and the message that nothing was
    running, and changes nothing else.  With a handle whose child is still
    running it sends SIGTERM, waits up to 3 seconds, sends SIGKILL when the
    child has not ended by then, and returns [stopped = True]; the child
    has ended afterwards.  With a handle whose child has already ended it
    signals nothing and returns [stopped = False].  A second call right
    after finds nothing: it returns [stopped = False] and leaves the files,
    the children and the registry as they are. *)
Theorem stop_local_takes_and_clears (w : world) :
  (∃ res, (stop_local w).1 = Returned res)
  ∧ registry (stop_local w).2 = None
  ∧ (∃ rest, trace (stop_local w).2 = trace w ++ TAKE ++ rest)
  ∧ (registry w = None →
     (stop_local w).1 = Returned NOT_RUNNING
     ∧ procs (stop_local w).2 = procs w
     ∧ trace (stop_local w).2 = trace w ++ TAKE)
  ∧ (∀ p st, registry w = Some p → procs w !! p = Some st → alive st = true →
       (stop_local w).1 = Returned STOPPED
       ∧ procs (stop_local w).2 !! p = Some Exited
       ∧ (∀ q, q ≠ p → procs (stop_local w).2 !! q = procs w !! q)
       ∧ trace (stop_local w).2 = trace w ++ TAKE ++ STOPPING p (sigterm_of st))
  ∧ (∀ p, registry w = Some p → procs w !! p = Some Exited →
       (stop_local w).1 = Returned NOT_RUNNING
       ∧ procs (stop_local w).2 = procs w
       ∧ trace (stop_local w).2 = trace w ++ TAKE)
  ∧ ((stop_local (stop_local w).2).1 = Returned NOT_RUNNING
     ∧ registry (stop_local (stop_local w).2).2 = None
     ∧ procs (stop_local (stop_local w).2).2 = procs (stop_local w).2
     ∧ fs (stop_local (stop_local w).2).2 = fs (stop_local w).2
     ∧ trace (stop_local (stop_local w).2).2 = trace (stop_local w).2 ++ TAKE)
  ∧ stopped STOPPED = true ∧ stopped NOT_RUNNING = false.
Proof.
  destruct (stop_local_outcome w) as (res & w' & Hs & Hfs & Hn & Hwa & Hreg & H).
  rewrite Hs. cbn [fst snd].
  split; [by eexists|]. split; [done|]. split.
  { destruct (registry w) as [p|]; [destruct (procs w !! p) as [[b|b|]|]|].
    - exists (STOPPING p b). apply H.
    - exists (STOPPING p b). apply H.
    - exists []. rewrite app_nil_r. apply H.
    - exists []. rewrite app_nil_r. apply H.
    - exists []. rewrite app_nil_r. apply H. }
  split. { intros E. rewrite E in H. destruct H as (-> & ? & ?). done. }
  split.
  { intros p st E Hp Ha. rewrite E, Hp in H.
    destruct st as [b|b|]; [| |done]; destruct H as (-> & ? & ? & ?); done. }
  split. { intros p E Hp. rewrite E, Hp in H. destruct H as (-> & ? & ?). done. }
  split; [|done].
  destruct (stop_local_outcome w') as (res2 & w2 & Hs2 & Hfs2 & _ & _ & Hreg2 & H2).
  rewrite Hs2. cbn [fst snd]. rewrite Hreg in H2. destruct H2 as (-> & ? & ?). done.
Qed.

(** C7, as the specification states it, fails: after the child of a
    launch has ended and before its [_cleanup] thread has run, the
    registry still holds the handle, and [stop_local] returns
    [stopped = False]. *)
Lemma stop_local_handle_of_ended_child :
  registry (run_ops child_gone) = Some 0
  ∧ procs (run_ops child_gone) !! 0 = Some Exited
  ∧ (stop_local (run_ops child_gone)).1 = Returned NOT_RUNNING
  ∧ stopped NOT_RUNNING = false
  ∧ (stop_local (run_ops child_gone)).1 ≠ Returned STOPPED.
Proof.
  split; [vm_compute; reflexivity|]. split; [vm_compute; reflexivity|].
  split; [vm_compute; reflexivity|]. split; [reflexivity|].
  vm_compute. discriminate.
Qed.

Lemma stop_local_takes_and_clears_witness :
  registry (run_ops first_launch) = Some 0
  ∧ procs (run_ops first_launch) !! 0 = Some (Running (Some 100))
  ∧ (stop_local (run_ops first_launch)).1 = Returned STOPPED
  ∧ procs (stop_local (run_ops first_launch)).2 !! 0 = Some Exited
  ∧ trace (stop_local (run_ops first_launch)).2
    = trace (run_ops first_launch) ++ TAKE ++ [Sigterm 0; Waited 0 3].
Proof.
  assert (registry (run_ops first_launch) = Some 0) as Hr by (vm_compute; reflexivity).
  assert (procs (run_ops first_launch) !! 0 = Some (Running (Some 100))) as Hp
    by (vm_compute; reflexivity).
  split; [exact Hr|]. split; [exact Hp|].
  destruct (stop_local_takes_and_clears (run_ops first_launch))
    as (_ & _ & _ & _ & H & _).
  destruct (H 0 _ Hr Hp eq_refl) as (H1 & H2 & _ & H4).
  split; [exact H1|]. split; [exact H2|]. exact H4.
Defined.

Lemma run_local_replaces env code files (w : world) old st r :
  invariant w →
  registry w = Some old → procs w !! old = Some st → alive st = true →
  (run_local env code files w).1 = Returned r → error r = [] →
  handles (run_local env code files w).2 = [next_pid w]
  ∧ next_pid w ≠ old
  ∧ procs (run_local env code files w).2 !! old = Some Exited
  ∧ (∃ b, procs (run_local env code files w).2 !! next_pid w = Some (Running b))
  ∧ (∀ p st', procs (run_local env code files w).2 !! p = Some st' →
       alive st' = true → p = next_pid w)
  ∧ trace (run_local env code files w).2
    = trace w ++ TAKE ++ STOPPING old (sigterm_of st) ++ REGISTER (next_pid w).
Proof.
  intros Hi Hreg Hp Ha Hr He.
  destruct (invariant_stop w Hi) as [Hi0 [_ Hdead]].
  pose proof (inv_fresh w Hi _ _ Hp) as Hlt.
  destruct (stop_local_outcome w) as (res & w0 & Hs & _ & Hn & _ & _ & H).
  rewrite Hreg, Hp in H. rewrite Hs in Hdead. cbn [snd] in Hdead.
  assert (procs w0 !! old = Some Exited
          ∧ trace w0 = trace w ++ TAKE ++ STOPPING old (sigterm_of st)) as [Hold Ht].
  { destruct st as [b|b|]; [| |done]; by destruct H as (_ & ? & _ & ?). }
  rewrite run_local_eq in *. rewrite Hs in *. cbn [snd] in *.
  destruct (fsop_materialize env (utf8 "kata_live_") code files w0) as [Hfr _].
  destruct (materialize env _ code files w0) as [[d|e] w1]; cbn [fst snd] in *; [|done].
  apply frame_fields in Hfr as (Hpr & Hnp & _ & _ & Htr).
  destruct (foreground_child env) as [m|b]; cbn [fst snd] in *.
  { injection Hr as <-. cbn [error] in He. apply (f_equal length) in He.
    rewrite length_app in He. by vm_compute in He. }
  unfold launched, handles. cbn [fs procs next_pid registry watchers trace].
  rewrite Hnp, Hn, Hpr, Htr, Ht.
  split; [done|]. split; [lia|].
  split; [rewrite lookup_insert_ne by lia; done|].
  split; [exists b; by rewrite lookup_insert_eq|].
  split; [|by rewrite <- !app_assoc].
  intros p st' Hp' Ha'. destruct (decide (p = next_pid w)) as [->|Hne]; [done|].
  rewrite lookup_insert_ne in Hp' by done. apply Hdead in Hp'. congruence.
Qed.

(** C8.  In every state the system reaches by launches, stops, children
    ending and [_cleanup] threads running, the registry holds no handle or
    one; a child that is still alive is the registered one, so at most one
    is alive; and every read and write of the registry lies between an
    acquire and the release of the lock.  A launch over an active session
    that succeeds stops the prior child first (SIGTERM, a wait of up to 3
    seconds, SIGKILL if needed), and leaves exactly one handle, that of
    the new child, which is then the only one alive. *)
Theorem registry_single_handle (ops : list op) :
  (length (handles (run_ops ops)) ≤ 1)%nat
  ∧ (∀ p st, procs (run_ops ops) !! p = Some st → alive st = true →
       handles (run_ops ops) = [p])
  ∧ well_locked false (trace (run_ops ops)) = true
  ∧ (∀ env code files old st r,
       registry (run_ops ops) = Some old →
       procs (run_ops ops) !! old = Some st → alive st = true →
       (run_local env code files (run_ops ops)).1 = Returned r → error r = [] →
       handles (run_local env code files (run_ops ops)).2 = [next_pid (run_ops ops)]
       ∧ next_pid (run_ops ops) ≠ old
       ∧ procs (run_local env code files (run_ops ops)).2 !! old = Some Exited
       ∧ (∃ b, procs (run_local env code files (run_ops ops)).2
               !! next_pid (run_ops ops) = Some (Running b))
       ∧ (∀ p st', procs (run_local env code files (run_ops ops)).2 !! p = Some st' →
            alive st' = true → p = next_pid (run_ops ops))
       ∧ trace (run_local env code files (run_ops ops)).2
         = trace (run_ops ops) ++ TAKE ++ STOPPING old (sigterm_of st)
           ++ REGISTER (next_pid (run_ops ops))).
Proof.
  pose proof (invariant_run_ops ops) as Hi.
  split; [unfold handles; destruct (registry _); cbn; lia|].
  split. { intros p st Hp Ha. unfold handles. by rewrite (inv_registered _ Hi _ _ Hp Ha). }
  split; [apply Hi|].
  intros env code files old st r. by apply run_local_replaces.
Qed.

Lemma registry_single_handle_witness :
  registry (run_ops first_launch) = Some 0
  ∧ procs (run_ops first_launch) !! 0 = Some (Running (Some 100))
  ∧ (run_local second_env (utf8 "cv2.VideoCapture(1)") None (run_ops first_launch)).1
    = Returned (Result None RUNNING_MESSAGE [])
  ∧ handles (run_local second_env (utf8 "cv2.VideoCapture(1)") None
               (run_ops first_launch)).2 = [1]
  ∧ procs (run_local second_env (utf8 "cv2.VideoCapture(1)") None
             (run_ops first_launch)).2 !! 0 = Some Exited
  ∧ trace (run_local second_env (utf8 "cv2.VideoCapture(1)") None
             (run_ops first_launch)).2
    = trace (run_ops first_launch) ++ TAKE ++ [Sigterm 0; Waited 0 3] ++ REGISTER 1.
Proof.
  assert (registry (run_ops first_launch) = Some 0) as Hr by (vm_compute; reflexivity).
  assert (procs (run_ops first_launch) !! 0 = Some (Running (Some 100))) as Hp
    by (vm_compute; reflexivity).
  assert ((run_local second_env (utf8 "cv2.VideoCapture(1)") None
             (run_ops first_launch)).1 = Returned (Result None RUNNING_MESSAGE []))
    as Hl by (vm_compute; reflexivity).
  assert (next_pid (run_ops first_launch) = 1) as Hn by (vm_compute; reflexivity).
  split; [exact Hr|]. split; [exact Hp|]. split; [exact Hl|].
  destruct (registry_single_handle first_launch) as (_ & _ & _ & H).
  destruct (H second_env (utf8 "cv2.VideoCapture(1)") None 0 _ _ Hr Hp eq_refl Hl eq_refl)
    as (H1 & _ & H3 & _ & _ & H6).
  rewrite Hn in H1, H6.
  split; [exact H1|]. split; [exact H3|]. exact H6.
Defined.

(** * Further properties of the code *)

(** ** Where the file system changes *)

Lemma within_ret {A} d (a : A) : within d (ret a).
Proof. by intros w q _. Qed.

Lemma within_raise {A} d e : within d (raise (A:=A) e).
Proof. by intros w q _. Qed.

Lemma within_bind {A B} d (m : M A) (k : A → M B) :
  within d m → (∀ a, within d (k a)) → within d (bind m k).
Proof.
  intros Hm Hk w q Hq. rewrite bind_eq. specialize (Hm w q Hq).
  destruct (m w) as [[a|e] w1]; cbn [snd] in *; [|done].
  by rewrite (Hk a w1 q Hq).
Qed.

Lemma prefix_of_child (d : path) (name : str) : d `prefix_of` d ++ [name].
Proof. by exists [name]. Qed.

Lemma within_write_text env d name data : within d (write_text env (d ++ [name]) data).
Proof.
  intros w q Hq. unfold write_text. rewrite bind_eq.
  assert (q ≠ d ++ [name]) as Hne by (intros ->; apply Hq, prefix_of_child).
  pose proof (open_w_other env (d ++ [name]) w q Hne) as H.
  destruct (open_w env _ w) as [[[]|e] w1]; cbn [snd] in *; [|done].
  destruct (existsb _ _); cbn; [done|]. by rewrite lookup_insert_ne.
Qed.

Lemma within_write_bytes env d name data : within d (write_bytes env (d ++ [name]) data).
Proof.
  intros w q Hq. apply write_bytes_other. intros ->. apply Hq, prefix_of_child.
Qed.

Lemma within_write_each env d files : within d (write_each env d files).
Proof.
  induction files as [|[filename content] rest IH]; cbn [write_each];
    [apply within_ret|].
  destruct (path_name filename); [done|].
  apply within_bind; [apply within_write_bytes|done].
Qed.

Lemma within_write_uploaded_files env d files : within d (_write_uploaded_files env d files).
Proof.
  destruct files as [[|f fl]|]; cbn [_write_uploaded_files];
    [apply within_ret|apply within_write_each|apply within_ret].
Qed.

Lemma mkdtemp_cases env prefix w :
  (mkdtemp env prefix w = (Returned (temp_dir env prefix),
                           set_fs (insert (temp_dir env prefix) Dir) w)
   ∧ fs w !! temp_dir env prefix = None)
  ∨ (∃ e, mkdtemp env prefix w = (Raised e, w)).
Proof.
  unfold mkdtemp, temp_dir. cbv zeta.
  destruct (io_fault env _); [right; by eexists|].
  destruct (fs w !! _) eqn:E; [right; by eexists|]. by left.
Qed.

Lemma rmtree_lookup (d q : path) (f : gmap path node) :
  rmtree d f !! q = if decide (d `prefix_of` q) then None else f !! q.
Proof.
  unfold rmtree. destruct (decide _) as [Hp|Hp].
  - apply map_lookup_filter_None. right. intros x _ Hn. by apply Hn.
  - destruct (f !! q) as [x|] eqn:E.
    + by apply map_lookup_filter_Some.
    + apply map_lookup_filter_None. by left.
Qed.

Lemma fsop_subprocess_parse env :
  fsop (λ _, True)
    (result <- subprocess_run env TIMEOUT_SECONDS ;; ret (parse_output result.1 result.2)).
Proof.
  intros w. rewrite subprocess_run_result. cbn. split; [apply frame_refl|done].
Qed.


(** X1.  [run_code] leaves the system as it found it: the processes, the
    registry and its lock are untouched, every path outside the scratch
    directory keeps what it held, and when the scratch directory could be
    made nothing is left at it or below it once the call is over, whether
    the run succeeded, failed or timed out; when it could not be made the
    file system is unchanged. *)
Theorem run_code_leaves_no_trace env code files w :
  frame w (run_code env code files w).2
  ∧ (∀ q, ¬ temp_dir env (utf8 "kata_run_") `prefix_of` q →
       fs (run_code env code files w).2 !! q = fs w !! q)
  ∧ (∀ d, (mkdtemp env (utf8 "kata_run_") w).1 = Returned d →
       d = temp_dir env (utf8 "kata_run_")
       ∧ ∀ q, d `prefix_of` q → fs (run_code env code files w).2 !! q = None)
  ∧ (∀ e, (mkdtemp env (utf8 "kata_run_") w).1 = Raised e →
       fs (run_code env code files w).2 = fs w).
Proof.
  set (d := temp_dir env (utf8 "kata_run_")).
  assert (∃ w2, (run_code env code files w).2
                = match mkdtemp env (utf8 "kata_run_") w with
                  | (Returned _, w1) => set_fs (rmtree d) w2
                  | (Raised _, w1) => w1
                  end
              ∧ ∀ w1, mkdtemp env (utf8 "kata_run_") w = (Returned d, w1) →
                  frame w1 w2 ∧ ∀ q, ¬ d `prefix_of` q → fs w2 !! q = fs w1 !! q)
    as (w2 & Hw & H2).
  { unfold run_code, try_except, run_code_body, with_TemporaryDirectory.
    rewrite bind_eq.
    destruct (mkdtemp_cases env (utf8 "kata_run_") w) as [[Hm Hnone]|[e Hm]];
      rewrite Hm; fold d.
    - set (body := bind (write_text env (d ++ [utf8 "kata.py"]) code) _).
      exists (body (set_fs (insert d Dir) w)).2. split.
      + destruct (body _) as [[r|e] w2]; [done|]. by destruct e.
      + intros w1 [= <-]. split.
        * assert (fsop (λ _, True) body) as Hfs.
          { apply fsop_bind; [eapply fsop_weaken; [|apply fsop_write_text]; done|].
            intros _. apply fsop_bind;
              [eapply fsop_weaken; [|apply fsop_write_uploaded_files]; done|].
            intros _. apply fsop_subprocess_parse. }
          apply Hfs.
        * assert (within d body) as Hwi.
          { apply within_bind; [apply within_write_text|]. intros _.
            apply within_bind; [apply within_write_uploaded_files|]. intros _.
            intros w' q _. by rewrite subprocess_run_result. }
          intros q Hq. by apply Hwi.
    - exists w. split; [by destruct e|]. by intros w1 [= ]. }
  destruct (mkdtemp_cases env (utf8 "kata_run_") w) as [[Hm Hnone]|[e Hm]];
    rewrite Hm in *; fold d in Hm; cbn [fst snd] in *.
  - destruct (H2 _ eq_refl) as [Hfr Hout]. rewrite Hw.
    split; [|split; [|split; [|done]]].
    + eapply frame_trans; [apply frame_set_fs|].
      eapply frame_trans; [exact Hfr|apply frame_set_fs].
    + intros q Hq. cbn. rewrite rmtree_lookup, decide_False by done.
      rewrite Hout by done. cbn. rewrite lookup_insert_ne; [done|].
      intros E. apply Hq. by rewrite <- E.
    + intros d' [= <-]. split; [done|]. intros q Hq. cbn.
      by rewrite rmtree_lookup, decide_True.
  - rewrite Hw. split; [apply frame_refl|]. split; [done|]. split; [done|]. done.
Qed.

(** ** Which upload a name ends up holding *)

Lemma write_each_last_wins env run_dir files w n :
  n ≠ [] →
  (write_each env run_dir files w).1 = Returned () →
  fs (write_each env run_dir files w).2 !! (run_dir ++ [n])
  = match last_upload n files with
    | Some (_, c) => Some (File (Binary c))
    | None => fs w !! (run_dir ++ [n])
    end.
Proof.
  intros Hn. revert w. induction files as [|[f c] rest IH]; intros w; [done|].
  unfold last_upload in *. rewrite last_filter_cons. cbn [write_each fst].
  destruct (path_name f) as [|a name] eqn:Ef.
  - intros H. rewrite (IH w H). rewrite decide_False by congruence.
    by destruct (last _).
  - rewrite <- Ef. rewrite bind_eq.
    destruct (write_bytes env (run_dir ++ [path_name f]) c w) as [[[]|e] w1] eqn:Hb;
      [|done].
    intros H. rewrite (IH w1 H).
    destruct (last _) as [[]|]; [done|].
    destruct (decide (path_name f = n)) as [<-|Hne].
    + by apply write_bytes_file in Hb.
    + replace w1 with (write_bytes env (run_dir ++ [path_name f]) c w).2
        by by rewrite Hb.
      apply write_bytes_other. intros E. apply app_inv_head in E. congruence.
Qed.

Lemma write_text_file env p data w :
  (write_text env p data w).1 = Returned () →
  fs (write_text env p data w).2 !! p = Some (File (Text data)).
Proof.
  unfold write_text. rewrite bind_eq.
  destruct (open_w env p w) as [[[]|e] w1]; [|done].
  destruct (existsb _ _); [done|]. intros _. cbn. by rewrite lookup_insert_eq.
Qed.

(** X2.  When the scratch directory has been filled, each name holds the
    bytes of the last upload whose sanitized name it is.  The source file
    [kata.py] is no exception: it holds the submitted code only if no
    upload is named [kata.py]; otherwise it holds the bytes of that
    upload.  A name no upload has, other than [kata.py], holds what it
    held before. *)
Theorem materialize_last_upload_wins env prefix code files w d n :
  (materialize env prefix code files w).1 = Returned d →
  n ≠ [] →
  fs (materialize env prefix code files w).2 !! (d ++ [n])
  = match last_upload n (default [] files) with
    | Some (_, c) => Some (File (Binary c))
    | None => if decide (n = utf8 "kata.py") then Some (File (Text code))
              else fs w !! (d ++ [n])
    end.
Proof.
  intros Hm Hn. unfold materialize in *. rewrite bind_eq in *.
  destruct (mkdtemp_cases env prefix w) as [[Hd Hnone]|[e Hd]]; rewrite Hd in *;
    [|done].
  set (d0 := temp_dir env prefix) in *. set (w0 := set_fs (insert d0 Dir) w) in *.
  rewrite bind_eq in *.
  pose proof (write_text_file env (d0 ++ [utf8 "kata.py"]) code w0) as Ht.
  pose proof (open_w_other env (d0 ++ [utf8 "kata.py"]) w0) as Hoo.
  assert (∀ q, q ≠ d0 ++ [utf8 "kata.py"] →
            fs (write_text env (d0 ++ [utf8 "kata.py"]) code w0).2 !! q = fs w0 !! q)
    as Hother.
  { intros q Hq. unfold write_text. rewrite bind_eq. specialize (Hoo q Hq).
    destruct (open_w env _ w0) as [[[]|e] w1']; cbn [snd] in *; [|done].
    destruct (existsb _ _); cbn; [done|]. by rewrite lookup_insert_ne. }
  destruct (write_text env _ code w0) as [[[]|e] w1]; [|done].
  specialize (Ht eq_refl). cbn [snd] in *. rewrite bind_eq in *.
  assert (_write_uploaded_files env d0 files w1
          = write_each env d0 (default [] files) w1) as Eu
    by (by destruct files as [[|]|]).
  rewrite Eu in *.
  pose proof (write_each_last_wins env d0 (default [] files) w1 n Hn) as Hl.
  destruct (write_each env d0 _ w1) as [[[]|e] w2]; [|done].
  cbn in Hm. injection Hm as <-. cbn [fst snd] in *.
  change (ret d0 w2).2 with w2. change [utf8 "tmp"; prefix ++ tmp_suffix env] with d0.
  rewrite (Hl eq_refl).
  destruct (last_upload n _) as [[]|]; [done|].
  destruct (decide (n = utf8 "kata.py")) as [->|Hk]; [done|].
  rewrite Hother by (intros E; apply app_inv_head in E; congruence).
  subst w0. cbn. rewrite lookup_insert_ne; [done|].
  intros E. apply (f_equal length) in E. revert E. rewrite ?length_app. cbn. lia.
Qed.

Lemma materialize_last_upload_wins_witness :
  (materialize (env_of Hangs) (utf8 "kata_run_") (utf8 "print(1)") kata_upload
     initial).1 = Returned sample_dir
  ∧ fs (materialize (env_of Hangs) (utf8 "kata_run_") (utf8 "print(1)") kata_upload
          initial).2 !! (sample_dir ++ [utf8 "kata.py"])
    = Some (File (Binary [x33]))
  ∧ fs (materialize (env_of Hangs) (utf8 "kata_run_") (utf8 "print(1)") None
          initial).2 !! (sample_dir ++ [utf8 "kata.py"])
    = Some (File (Text (utf8 "print(1)"))).
Proof.
  assert ((materialize (env_of Hangs) (utf8 "kata_run_") (utf8 "print(1)") kata_upload
             initial).1 = Returned sample_dir) as H1 by (vm_compute; reflexivity).
  assert ((materialize (env_of Hangs) (utf8 "kata_run_") (utf8 "print(1)") None
             initial).1 = Returned sample_dir) as H2 by (vm_compute; reflexivity).
  assert (utf8 "kata.py" ≠ []) as Hn by (vm_compute; discriminate).
  split; [exact H1|]. split.
  - rewrite (materialize_last_upload_wins _ _ _ _ _ _ _ H1 Hn). vm_compute. reflexivity.
  - rewrite (materialize_last_upload_wins _ _ _ _ _ _ _ H2 Hn). vm_compute. reflexivity.
Defined.

(** ** What the result says about the child's streams *)

(** X3.  When the child exits in time, the [error] field is empty exactly
    when no line of the trimmed stderr starts with [EXEC_ERROR:], and there
    is no image exactly when no line of the trimmed stdout starts with
    [IMAGE:]: an error line always yields some text, even with nothing
    after the tag. *)
Theorem run_code_error_and_image_presence env code files w d after_ms out err :
  (materialize env (utf8 "kata_run_") code files w).1 = Returned d →
  bounded_child env = Exits after_ms out err →
  after_ms ≤ 1000 * TIMEOUT_SECONDS →
  ∃ r, (run_code env code files w).1 = Returned r
       ∧ (error r = [] ↔ existsb is_exec_error (splitlines (strip err)) = false)
       ∧ (image_b64 r = None ↔ existsb is_image (splitlines (strip out)) = false).
Proof.
  intros Hm Hc Ht. exists (parse_output out err).
  split; [by erewrite run_code_exits|].
  rewrite parse_output_spec. cbn [error image_b64]. split.
  - rewrite <- last_filter_None. unfold last_error.
    destruct (last _) as [l|]; cbn; [|done].
    split; [|done]. intros H. by destruct (proj2 (friendly_error_head (payload 11 l))).
  - rewrite <- last_filter_None. unfold last_image. by destruct (last _).
Qed.

Lemma run_code_error_and_image_presence_witness :
  ∃ r, (run_code (env_of mixed_output) (utf8 "print('plain')") None initial).1
       = Returned r
       ∧ error r ≠ [] ∧ image_b64 r ≠ None.
Proof.
  assert ((materialize (env_of mixed_output) (utf8 "kata_run_") (utf8 "print('plain')")
             None initial).1 = Returned sample_dir) as Hm by (vm_compute; reflexivity).
  assert (200 ≤ 1000 * TIMEOUT_SECONDS) as Ht by (vm_compute; discriminate).
  destruct (run_code_error_and_image_presence _ _ _ _ _ _ _ _ Hm eq_refl Ht)
    as (r & Hr & He & Hi).
  exists r. split; [exact Hr|]. split.
  - intros H. apply He in H. vm_compute in H. discriminate.
  - intros H. apply Hi in H. vm_compute in H. discriminate.
Defined.

(** ** Blank space around the streams *)

Lemma lstrip_app (s t : str) :
  lstrip (s ++ t) = if forallb isspace s then lstrip t else lstrip s ++ t.
Proof.
  induction s as [|c s IH]; [done|]. cbn. by destruct (isspace c).
Qed.

Lemma lstrip_blank (s : str) : forallb isspace s = true → lstrip s = [].
Proof.
  induction s as [|c s IH]; [done|]. cbn. destruct (isspace c); [done|discriminate].
Qed.

Lemma forallb_rev {A} (f : A → bool) (l : list A) :
  forallb f (rev l) = forallb f l.
Proof.
  induction l as [|x l IH]; [done|]. cbn. rewrite forallb_app, IH. cbn.
  by destruct (f x), (forallb f l).
Qed.

Lemma rstrip_app_blank (s t : str) :
  forallb isspace t = true → rstrip (s ++ t) = rstrip s.
Proof.
  intros H. unfold rstrip. by rewrite rev_app_distr, lstrip_app, forallb_rev, H.
Qed.

Lemma strip_blank (s : str) : forallb isspace s = true → strip s = [].
Proof. intros H. unfold strip. by rewrite lstrip_blank. Qed.

Lemma strip_pad (a s b : str) :
  forallb isspace a = true → forallb isspace b = true →
  strip (a ++ s ++ b) = strip s.
Proof.
  intros Ha Hb. unfold strip. rewrite lstrip_app, Ha, lstrip_app.
  destruct (forallb isspace s) eqn:Hs.
  - by rewrite (lstrip_blank b), (lstrip_blank s).
  - by rewrite rstrip_app_blank.
Qed.

(** X4.  Blank space around the child's streams does not matter: when the
    child exits in time, whitespace (blanks, tabs, line ends) before the
    first and after the last visible character of stdout and of stderr
    leaves the result what it is without it. *)
Theorem run_code_ignores_padding env code files w d after_ms out err a b a' b' :
  forallb isspace (a ++ b ++ a' ++ b') = true →
  (materialize env (utf8 "kata_run_") code files w).1 = Returned d →
  bounded_child env = Exits after_ms (a ++ out ++ b) (a' ++ err ++ b') →
  after_ms ≤ 1000 * TIMEOUT_SECONDS →
  (run_code env code files w).1 = Returned (parse_output out err).
Proof.
  intros Hs Hm Hc Ht. rewrite !forallb_app in Hs.
  apply andb_true_iff in Hs as [Ha Hs]. apply andb_true_iff in Hs as [Hb Hs].
  apply andb_true_iff in Hs as [Ha' Hb'].
  erewrite run_code_exits by done. cbn [fst]. f_equal.
  unfold parse_output. by rewrite !strip_pad.
Qed.

Lemma run_code_ignores_padding_witness :
  (run_code (env_of padded_output) (utf8 "print('ready')") None initial).1
  = Returned (Result None (utf8 "ready" ++ [LF] ++ utf8 "note") []).
Proof.
  assert ((materialize (env_of padded_output) (utf8 "kata_run_") (utf8 "print('ready')")
             None initial).1 = Returned sample_dir) as Hm by (vm_compute; reflexivity).
  assert (200 ≤ 1000 * TIMEOUT_SECONDS) as Ht by (vm_compute; discriminate).
  assert (forallb isspace ([LF; 32] ++ [32; LF] ++ [9] ++ [LF; LF]) = true) as Hs
    by (vm_compute; reflexivity).
  rewrite (run_code_ignores_padding _ _ _ _ _ _ _ _ _ _ _ _ Hs Hm eq_refl Ht).
  vm_compute. reflexivity.
Defined.

(** ** The friendly messages keep the raw text apart *)

Ltac friendly_heads H :=
  apply (f_equal (take 4)) in H; vm_compute in H; discriminate H.

(** X5.  The translation loses nothing: two different raw messages never
    get the same friendly message, and no raw message, not even the empty
    one, gets the empty message. *)
Theorem make_friendly_error_injective (a b : str) :
  (_make_friendly_error a = _make_friendly_error b → a = b)
  ∧ _make_friendly_error a ≠ [].
Proof.
  split; [|apply friendly_error_head].
  unfold _make_friendly_error.
  repeat (match goal with |- context [contains ?p a] => destruct (contains p a) end;
          cbv beta iota delta [orb]);
    repeat (match goal with |- context [contains ?p b] => destruct (contains p b) end;
            cbv beta iota delta [orb]);
    intros H;
    first [ friendly_heads H
          | apply app_inv_head in H; try apply app_inv_tail in H; exact H ].
Qed.

(** ** Removing the scratch directory of a foreground run *)

Lemma parent_child (d : path) (name : str) : parent (d ++ [name]) = d.
Proof. apply removelast_last. Qed.

Lemma child_iff (d q : path) :
  q ≠ [] ∧ parent q = d ↔ ∃ name, q = d ++ [name].
Proof.
  split.
  - intros [Hq <-]. exists (List.last q []). by apply app_removelast_last.
  - intros [name ->]. split; [by destruct d|apply parent_child].
Qed.

Lemma elem_of_children (f : gmap path node) (d q : path) :
  q ∈ children f d ↔ (∃ name, q = d ++ [name]) ∧ is_Some (f !! q).
Proof.
  unfold children. rewrite list_elem_of_filter, child_iff, list_elem_of_fmap.
  split; intros [Hc H]; (split; [done|]).
  - destruct H as ([q' x] & -> & H). apply elem_of_map_to_list in H. by eexists.
  - destruct H as [x H]. exists (q, x). split; [done|]. by apply elem_of_map_to_list.
Qed.

Lemma child_neq (d : path) (name : str) : d ≠ d ++ [name].
Proof.
  intros E. apply (f_equal length) in E. rewrite length_app in E. cbn in E. lia.
Qed.

Lemma unlink_files_spec env (cs : list path) (w : world) :
  healthy env →
  (unlink_files env cs w).1 = Returned tt
  ∧ ∀ q, fs (unlink_files env cs w).2 !! q
         = match fs w !! q with
           | Some (File c) => if decide (q ∈ cs) then None else Some (File c)
           | x => x
           end.
Proof.
  intros Hh. revert w. induction cs as [|child rest IH]; intros w.
  - split; [done|]. intros q. cbn. by destruct (fs w !! q) as [[|]|].
  - assert (∃ w1, unlink_files env (child :: rest) w = unlink_files env rest w1
                  ∧ ∀ q, fs w1 !! q
                         = match fs w !! q with
                           | Some (File c) => if decide (q = child) then None
                                              else Some (File c)
                           | x => x
                           end) as (w1 & -> & H1).
    { cbn [unlink_files]. rewrite bind_eq. unfold is_file, gets. cbv beta iota.
      rewrite bind_eq.
      destruct (fs w !! child) as [[|c]|] eqn:E.
      - exists w. split; [done|]. intros q. destruct (fs w !! q) as [[|c]|] eqn:Eq; try done.
        rewrite decide_False; [done|]. congruence.
      - exists (set_fs (delete child) w). split.
        + unfold unlink. by rewrite Hh, E.
        + intros q. cbn. destruct (decide (q = child)) as [->|Hne].
          * by rewrite lookup_delete_eq, E.
          * rewrite lookup_delete_ne by done. by destruct (fs w !! q) as [[|]|].
      - exists w. split; [done|]. intros q. destruct (fs w !! q) as [[|c]|] eqn:Eq; try done.
        rewrite decide_False; [done|]. congruence. }
    destruct (IH w1) as [Hr Hl]. split; [done|].
    intros q. rewrite Hl, H1. destruct (fs w !! q) as [[|c]|]; try done.
    destruct (decide (q = child)) as [->|Hne].
    + rewrite decide_True; [done|]. apply list_elem_of_here.
    + destruct (decide (q ∈ rest)) as [Hin|Hin].
      * rewrite decide_True; [done|]. by apply list_elem_of_further.
      * rewrite decide_False; [done|]. intros [?|?]%elem_of_cons; done.
Qed.

Lemma remove_run_dir_cleared env (d : path) (name : str) (w : world) :
  healthy env → fs w !! d = Some Dir → only_files d (fs w) →
  cleared d (fs w) (fs (remove_run_dir env (d ++ [name]) d w).2).
Proof.
  intros Hh Hd Hof.
  unfold remove_run_dir, ignoring_OSError, try_except.
  rewrite bind_eq. unfold exists_ at 1, gets at 1. cbv beta iota. rewrite bind_eq.
  assert (∃ w1, (if bool_decide (is_Some (fs w !! (d ++ [name])))
                 then unlink env false (d ++ [name]) else ret tt) w = (Returned tt, w1)
                ∧ fs w1 = delete (d ++ [name]) (fs w)) as (w1 & -> & H1).
  { destruct (fs w !! (d ++ [name])) as [x|] eqn:E.
    - destruct (Hof _ _ E) as [c ->]. rewrite bool_decide_eq_true_2 by by eexists.
      exists (set_fs (delete (d ++ [name])) w). split; [|done].
      unfold unlink. by rewrite Hh, E.
    - rewrite bool_decide_eq_false_2 by (by intros [? ?]).
      exists w. split; [done|]. by rewrite delete_id. }
  cbv beta iota.
  assert (fs w1 !! d = Some Dir) as Hd1.
  { rewrite H1, lookup_delete_ne; [done|]. intros E. by apply (child_neq d name). }
  rewrite bind_eq. unfold iterdir at 1. rewrite Hh, Hd1. rewrite bind_eq.
  destruct (unlink_files_spec env (children (fs w1) d) w1 Hh) as [Hr Hl].
  destruct (unlink_files env (children (fs w1) d) w1) as [r w2]. cbn [fst snd] in *.
  subst r.
  assert (∀ n, fs w2 !! (d ++ [n]) = None) as Hgone.
  { intros n. rewrite Hl. destruct (fs w1 !! (d ++ [n])) as [x|] eqn:E; [|done].
    assert (∃ c, x = File c) as [c ->].
    { rewrite H1 in E. apply lookup_delete_Some in E as [_ E]. by eapply Hof. }
    rewrite decide_True; [done|]. apply elem_of_children. split; by eexists. }
  assert (fs w2 !! d = Some Dir) as Hd2 by by rewrite Hl, Hd1.
  assert (children (fs w2) d = []) as Hnil.
  { destruct (children (fs w2) d) as [|q l] eqn:E; [done|].
    assert (q ∈ children (fs w2) d) as Hq by (rewrite E; apply list_elem_of_here).
    apply elem_of_children in Hq as [[n ->] [x Hx]]. by rewrite Hgone in Hx. }
  unfold rmdir. rewrite Hh, Hd2, Hnil. cbn.
  split; [by rewrite lookup_delete_eq|]. split.
  - intros n. rewrite lookup_delete_ne by apply child_neq. apply Hgone.
  - intros q Hqd Hqc. rewrite lookup_delete_ne by done. rewrite Hl.
    assert (fs w1 !! q = fs w !! q) as -> by (rewrite H1; by apply lookup_delete_ne).
    destruct (fs w !! q) as [[|c]|] eqn:E; try done.
    rewrite decide_False; [done|]. intros [[n ->] _]%elem_of_children. by apply (Hqc n).
Qed.

Lemma returns_unit (m : M unit) (w : world) :
  (∀ e, (m w).1 = Raised e → False) → (m w).1 = Returned tt.
Proof. destruct (m w) as [[[]|e] w']; [done|]. intros H. by destruct (H e). Qed.

Lemma remove_run_dir_returns env tmp_path run_dir w :
  (remove_run_dir env tmp_path run_dir w).1 = Returned tt.
Proof. apply returns_unit, (fsop_remove_run_dir env tmp_path run_dir w). Qed.

Lemma cleanup_eq env (p : pid) (run_dir : path) (w : world) :
  ∃ w1, _cleanup env p run_dir w
        = remove_run_dir env (run_dir ++ [utf8 "kata.py"]) run_dir w1
  ∧ fs w1 = fs w ∧ procs w1 = procs w ∧ next_pid w1 = next_pid w
  ∧ watchers w1 = watchers w
  ∧ registry w1 = (if decide (registry w = Some p) then None else registry w).
Proof.
  destruct w as [f pr np reg wa tr].
  unfold _cleanup, acquire, reg_read, reg_write, release, bind, ret, modify, log,
    set_registry.
  cbn [fs procs next_pid registry watchers trace].
  destruct (decide (reg = Some p)) as [->|Hne].
  - rewrite bool_decide_eq_true_2 by done.
    cbn [fs procs next_pid registry watchers trace].
    eexists. split; [reflexivity|]. cbn [fs procs next_pid registry watchers trace].
    done.
  - rewrite bool_decide_eq_false_2 by done.
    cbn [fs procs next_pid registry watchers trace].
    eexists. split; [reflexivity|]. cbn [fs procs next_pid registry watchers trace].
    done.
Qed.

(** X6.  When the file system works and the scratch directory of a
    foreground run holds regular files only, [_cleanup] removes the
    directory and every file in it, leaves every other path as it was, and
    returns normally. *)
Theorem cleanup_removes_workspace env (p : pid) (d : path) (w : world) :
  healthy env → fs w !! d = Some Dir → only_files d (fs w) →
  (_cleanup env p d w).1 = Returned tt
  ∧ cleared d (fs w) (fs (_cleanup env p d w).2).
Proof.
  intros Hh Hd Hof. destruct (cleanup_eq env p d w) as (w1 & -> & Hfs & _).
  split; [apply remove_run_dir_returns|]. rewrite <- Hfs in *.
  by apply remove_run_dir_cleared.
Qed.

Lemma cleanup_removes_workspace_witness :
  (_cleanup (env_of Hangs) 0 live_dir filled_world).1 = Returned tt
  ∧ fs (_cleanup (env_of Hangs) 0 live_dir filled_world).2 !! live_dir = None
  ∧ fs (_cleanup (env_of Hangs) 0 live_dir filled_world).2
      !! (live_dir ++ [utf8 "img.png"]) = None.
Proof.
  assert (healthy (env_of Hangs)) as Hh by done.
  assert (fs filled_world !! live_dir = Some Dir) as Hd by (vm_compute; reflexivity).
  assert (only_files live_dir (fs filled_world)) as Hof.
  { intros name x. unfold filled_world. cbn [fs set_fs].
    rewrite lookup_insert_ne by apply child_neq.
    intros [[_ <-]|[_ H]]%lookup_insert_Some; [by eexists|].
    apply lookup_singleton_Some in H as [_ <-]. by eexists. }
  destruct (cleanup_removes_workspace (env_of Hangs) 0 live_dir filled_world Hh Hd Hof)
    as (Hr & H1 & H2 & _).
  split; [exact Hr|]. split; [exact H1|apply H2].
Defined.

(** ** What the removal leaves behind *)

Lemma preserves_ret {A} I (a : A) : preserves I (ret a).
Proof. by intros w. Qed.

Lemma preserves_gets {A} I (f : world → A) : preserves I (gets f).
Proof. by intros w. Qed.

Lemma preserves_bind {A B} I (m : M A) (k : A → M B) :
  preserves I m → (∀ a, preserves I (k a)) → preserves I (bind m k).
Proof.
  intros Hm Hk w Hw. rewrite bind_eq. specialize (Hm w Hw).
  destruct (m w) as [[a|e] w1]; cbn [snd] in *; [|done]. by apply Hk.
Qed.

Lemma preserves_try_except {A} I (m : M A) (h : exn → M A) :
  preserves I m → (∀ e, preserves I (h e)) → preserves I (try_except m h).
Proof.
  intros Hm Hh w Hw. unfold try_except. specialize (Hm w Hw).
  destruct (m w) as [[a|e] w1]; cbn [snd] in *; [done|]. by apply Hh.
Qed.

(** A directory [d] that holds a directory [d ++ [n]]. *)
Lemma preserves_unlink env b p (d : path) (n : str) :
  preserves (λ w, fs w !! d = Some Dir ∧ fs w !! (d ++ [n]) = Some Dir)
    (unlink env b p).
Proof.
  intros w [Hd Hn]. unfold unlink. destruct (io_fault env p); [done|].
  destruct (fs w !! p) as [[|c]|] eqn:E; [done| |by destruct b].
  cbn. rewrite !lookup_delete_ne by congruence. done.
Qed.

Lemma preserves_unlink_files env cs (d : path) (n : str) :
  preserves (λ w, fs w !! d = Some Dir ∧ fs w !! (d ++ [n]) = Some Dir)
    (unlink_files env cs).
Proof.
  induction cs as [|child rest IH]; cbn [unlink_files]; [apply preserves_ret|].
  apply preserves_bind; [apply preserves_gets|]. intros f.
  apply preserves_bind; [|done].
  destruct f; [apply preserves_unlink|apply preserves_ret].
Qed.

Lemma preserves_rmdir env (d : path) (n : str) :
  preserves (λ w, fs w !! d = Some Dir ∧ fs w !! (d ++ [n]) = Some Dir)
    (rmdir env d).
Proof.
  intros w [Hd Hn]. unfold rmdir. destruct (io_fault env d); [done|].
  rewrite Hd. destruct (children (fs w) d) as [|q l] eqn:E; [|done].
  assert (d ++ [n] ∈ children (fs w) d) as Hin
    by (apply elem_of_children; split; by eexists).
  rewrite E in Hin. by apply elem_of_nil in Hin.
Qed.

Lemma preserves_iterdir env (d' : path) I : preserves I (iterdir env d').
Proof.
  intros w Hw. unfold iterdir. destruct (io_fault env d'); [done|].
  by destruct (fs w !! d') as [[|]|].
Qed.

Lemma preserves_remove_run_dir env tmp_path (d : path) (n : str) :
  preserves (λ w, fs w !! d = Some Dir ∧ fs w !! (d ++ [n]) = Some Dir)
    (remove_run_dir env tmp_path d).
Proof.
  unfold remove_run_dir, ignoring_OSError.
  apply preserves_try_except; [|intros []; by intros w].
  apply preserves_bind; [apply preserves_gets|]. intros e.
  apply preserves_bind; [destruct e; [apply preserves_unlink|apply preserves_ret]|].
  intros _. apply preserves_bind; [apply preserves_iterdir|]. intros cs.
  apply preserves_bind; [apply preserves_unlink_files|]. intros _.
  apply preserves_rmdir.
Qed.

(** X7.  A directory inside the scratch directory defeats the removal, in
    silence: whatever the state of the system, [_cleanup] returns normally
    and the scratch directory and the directory inside it are still
    there. *)
Theorem cleanup_leaves_nonempty_directory env (p : pid) (d : path) (n : str) (w : world) :
  fs w !! d = Some Dir → fs w !! (d ++ [n]) = Some Dir →
  (_cleanup env p d w).1 = Returned tt
  ∧ fs (_cleanup env p d w).2 !! d = Some Dir
  ∧ fs (_cleanup env p d w).2 !! (d ++ [n]) = Some Dir.
Proof.
  intros Hd Hn. destruct (cleanup_eq env p d w) as (w1 & -> & Hfs & _).
  split; [apply remove_run_dir_returns|].
  apply (preserves_remove_run_dir env (d ++ [utf8 "kata.py"]) d n w1).
  by rewrite Hfs.
Qed.

Lemma cleanup_leaves_nonempty_directory_witness :
  (_cleanup (env_of Hangs) 0 live_dir nested_world).1 = Returned tt
  ∧ fs (_cleanup (env_of Hangs) 0 live_dir nested_world).2 !! live_dir = Some Dir
  ∧ fs (_cleanup (env_of Hangs) 0 live_dir nested_world).2
      !! (live_dir ++ [utf8 "frames"]) = Some Dir.
Proof.
  assert (fs nested_world !! live_dir = Some Dir) as Hd by (vm_compute; reflexivity).
  assert (fs nested_world !! (live_dir ++ [utf8 "frames"]) = Some Dir) as Hn
    by (vm_compute; reflexivity).
  exact (cleanup_leaves_nonempty_directory (env_of Hangs) 0 live_dir (utf8 "frames")
           nested_world Hd Hn).
Defined.

(** ** What filling the scratch directory changes *)

Lemma open_w_fs env p w :
  fs (open_w env p w).2 = fs w
  ∨ ∃ c, fs (open_w env p w).2 = <[p := File c]> (fs w).
Proof.
  unfold open_w. cbv zeta. case_bool_decide; [by left|].
  destruct (io_fault env p); [by left|]. case_bool_decide; [by left|].
  destruct (fs w !! p) as [[|c]|]; [by left| |];
    (destruct (fs w !! parent p) as [[|c']|]; [right; by eexists|by left..]).
Qed.

Lemma write_text_fs env p data w :
  fs (write_text env p data w).2 = fs w
  ∨ ∃ c, fs (write_text env p data w).2 = <[p := File c]> (fs w).
Proof.
  unfold write_text. rewrite bind_eq. pose proof (open_w_fs env p w) as H.
  destruct (open_w env p w) as [[[]|e] w1]; cbn [snd] in *; [|done].
  destruct (existsb _ _); [done|]. cbn. right. exists (Text data).
  destruct H as [->|[c ->]]; [done|apply insert_insert_eq].
Qed.

Lemma write_bytes_fs env p data w :
  fs (write_bytes env p data w).2 = fs w
  ∨ ∃ c, fs (write_bytes env p data w).2 = <[p := File c]> (fs w).
Proof.
  unfold write_bytes. rewrite bind_eq. pose proof (open_w_fs env p w) as H.
  destruct (open_w env p w) as [[[]|e] w1]; cbn [snd] in *; [|done].
  cbn. right. exists (Binary data).
  destruct H as [->|[c ->]]; [done|apply insert_insert_eq].
Qed.

Section fill.
Context (d : path) (I : gmap path node → Prop).
Hypothesis closed : ∀ f n c, I f → I (<[d ++ [n] := File c]> f).

Lemma write_each_inv env files w :
  I (fs w) → I (fs (write_each env d files w).2).
Proof.
  revert w. induction files as [|[filename content] rest IH]; intros w Hw; [done|].
  cbn [write_each]. destruct (path_name filename) as [|a n] eqn:E; [by apply IH|].
  rewrite bind_eq. pose proof (write_bytes_fs env (d ++ [a :: n]) content w) as H.
  destruct (write_bytes env _ content w) as [[[]|e] w1]; cbn [snd] in *.
  - apply IH. destruct H as [->|[c ->]]; [done|by apply closed].
  - destruct H as [->|[c ->]]; [done|by apply closed].
Qed.

Lemma fill_inv env code files w :
  I (fs w) →
  I (fs ((write_text env (d ++ [utf8 "kata.py"]) code ;;
          _write_uploaded_files env d files ;; ret d) w).2).
Proof.
  intros Hw. rewrite bind_eq.
  pose proof (write_text_fs env (d ++ [utf8 "kata.py"]) code w) as H.
  destruct (write_text env _ code w) as [[[]|e] w1]; cbn [snd] in *.
  - assert (I (fs w1)) as H1 by (destruct H as [->|[c ->]]; [done|by apply closed]).
    rewrite bind_eq.
    assert (_write_uploaded_files env d files w1
            = write_each env d (default [] files) w1) as ->
      by (by destruct files as [[|]|]).
    pose proof (write_each_inv env (default [] files) w1 H1) as H2.
    by destruct (write_each env d _ w1) as [[[]|e] w2].
  - destruct H as [->|[c ->]]; [done|by apply closed].
Qed.
End fill.

Lemma materialize_inv (I : gmap path node → Prop) env prefix code files (w : world) :
  (∀ f n c, I f → I (<[temp_dir env prefix ++ [n] := File c]> f)) →
  I (<[temp_dir env prefix := Dir]> (fs w)) →
  ∀ d, (materialize env prefix code files w).1 = Returned d →
  d = temp_dir env prefix ∧ fs w !! d = None
  ∧ I (fs (materialize env prefix code files w).2).
Proof.
  intros Hc Hi d. unfold materialize. rewrite bind_eq.
  destruct (mkdtemp_cases env prefix w) as [[Hm Hnone]|[e Hm]]; rewrite Hm; [|done].
  pose proof (fill_inv (temp_dir env prefix) I Hc env code files
                (set_fs (insert (temp_dir env prefix) Dir) w) Hi) as H.
  intros Hr. assert (d = temp_dir env prefix) as ->; [|done].
  revert Hr. clear. rewrite bind_eq.
  destruct (write_text env _ code _) as [[[]|e] w1]; [|done]. rewrite bind_eq.
  destruct (_write_uploaded_files env _ files w1) as [[[]|e] w2]; [|done].
  cbn. congruence.
Qed.

Lemma materialize_filled env code files (w : world) prefix d :
  (materialize env prefix code files w).1 = Returned d →
  (∀ n, fs w !! (d ++ [n]) = None) →
  fs w !! d = None
  ∧ fs (materialize env prefix code files w).2 !! d = Some Dir
  ∧ only_files d (fs (materialize env prefix code files w).2)
  ∧ ∀ q, q ≠ d → (∀ n, q ≠ d ++ [n]) →
      fs (materialize env prefix code files w).2 !! q = fs w !! q.
Proof.
  intros Hm Hfresh.
  set (I := λ f : gmap path node,
         f !! d = Some Dir ∧ only_files d f
         ∧ ∀ q, q ≠ d → (∀ n, q ≠ d ++ [n]) → f !! q = fs w !! q).
  assert (d = temp_dir env prefix) as Hd.
  { by eapply (materialize_inv (λ _, True)). }
  eapply (materialize_inv I) in Hm as (_ & ? & ?); [done|..]; rewrite <- Hd.
  - intros f n c (H1 & H2 & H3). split; [|split].
    + rewrite lookup_insert_ne; [done|]. intros E. by apply (child_neq d n).
    + intros n' x. destruct (decide (n = n')) as [->|Hne].
      * rewrite lookup_insert_eq. intros [= <-]. by eexists.
      * rewrite lookup_insert_ne by (intros E; apply app_inv_head in E; congruence).
        apply H2.
    + intros q Hq1 Hq2. rewrite lookup_insert_ne by (intros E; by apply (Hq2 n)).
      by apply H3.
  - split; [by rewrite lookup_insert_eq|]. split.
    + intros n x. rewrite lookup_insert_ne by apply child_neq. by rewrite Hfresh.
    + intros q Hq1 Hq2. by rewrite lookup_insert_ne.
Qed.

Lemma cleared_restores (d : path) (f0 f1 f' : gmap path node) :
  f0 !! d = None → (∀ n, f0 !! (d ++ [n]) = None) →
  (∀ q, q ≠ d → (∀ n, q ≠ d ++ [n]) → f1 !! q = f0 !! q) →
  cleared d f1 f' → f' = f0.
Proof.
  intros Hd Hfresh Hout (H1 & H2 & H3).
  apply map_eq. intros q. destruct (decide (q = d)) as [->|Hqd]; [by rewrite H1|].
  destruct (decide (q ∈ children (<[q := Dir]> ∅) d)) as [Hin|Hout'].
  - apply elem_of_children in Hin as [[n ->] _]. by rewrite H2, Hfresh.
  - assert (∀ n, q ≠ d ++ [n]) as Hq2.
    { intros n ->. apply Hout'. apply elem_of_children. split; [by eexists|].
      rewrite lookup_insert_eq. by eexists. }
    rewrite H3 by done. by apply Hout.
Qed.

(** X8.  A launch whose child cannot be started cleans up after itself:
    when the file system works and the scratch directory could be filled,
    [run_local] returns the error [Failed to launch: ...], the registry is
    empty, and the file system is what it was before the call, with the
    scratch directory and its files gone again. *)
Theorem run_local_failed_launch_cleans_up env code files (w : world) d m :
  healthy env →
  foreground_child env = SpawnFails m →
  (materialize env (utf8 "kata_live_") code files (stop_local w).2).1 = Returned d →
  (∀ n, fs w !! (d ++ [n]) = None) →
  (run_local env code files w).1
  = Returned (Result None [] (utf8 "Failed to launch: " ++ m))
  ∧ registry (run_local env code files w).2 = None
  ∧ fs (run_local env code files w).2 = fs w.
Proof.
  intros Hh Hc Hm Hfresh.
  destruct (run_local_spawn_fault env code files w d m Hm Hc) as [Hr Hreg].
  split; [done|]. split; [done|]. clear Hr Hreg.
  rewrite run_local_eq.
  destruct (stop_local_outcome w) as (res & w0 & Hs & Hfs & _).
  rewrite Hs in *. cbn [snd] in *. rewrite <- Hfs in *. clear Hs Hfs w res.
  destruct (materialize_filled env code files w0 _ d Hm Hfresh)
    as (Hnone & Hdir & Hof & Hout).
  destruct (materialize env _ code files w0) as [[d'|e] w1]; cbn [fst snd] in *; [|done].
  injection Hm as ->. rewrite Hc. cbn [snd].
  eapply (cleared_restores d); [done..|].
  by apply remove_run_dir_cleared.
Qed.

Lemma run_local_failed_launch_cleans_up_witness :
  (run_local no_python (utf8 "cv2.VideoCapture(0)") kata_upload initial).1
  = Returned (Result None [] (utf8 "Failed to launch: " ++ NO_PYTHON))
  ∧ registry (run_local no_python (utf8 "cv2.VideoCapture(0)") kata_upload initial).2
    = None
  ∧ fs (run_local no_python (utf8 "cv2.VideoCapture(0)") kata_upload initial).2
    = fs initial.
Proof.
  assert (healthy no_python) as Hh by done.
  assert ((materialize no_python (utf8 "kata_live_") (utf8 "cv2.VideoCapture(0)")
             kata_upload (stop_local initial).2).1
          = Returned (temp_dir no_python (utf8 "kata_live_"))) as Hm
    by (vm_compute; reflexivity).
  assert (∀ n, fs initial !! (temp_dir no_python (utf8 "kata_live_") ++ [n]) = None)
    as Hf by (intros n; apply lookup_empty).
  exact (run_local_failed_launch_cleans_up no_python _ _ _ _ NO_PYTHON Hh eq_refl Hm Hf).
Defined.

(** ** A foreground session from start to end *)

Lemma list_find_last_watcher (l : list (pid * path)) (p : pid) (d : path) :
  (∀ t, t ∈ l → t.1 ≠ p) →
  list_find (λ t, t.1 = p) (l ++ [(p, d)]) = Some (length l, (p, d)).
Proof.
  intros H. rewrite list_find_app_r.
  - cbn. by rewrite decide_True.
  - apply list_find_None, Forall_forall. intros t Ht. by apply H.
Qed.

Lemma delete_last {A} (l : list A) (x : A) : delete (length l) (l ++ [x]) = l.
Proof. induction l as [|y l IH]; [done|]. cbn. by f_equal. Qed.

(** X9.  A foreground session that ends by itself leaves nothing behind.
    When the launch succeeds, the child later exits, and its [_cleanup]
    thread runs on a working file system, then the registry is empty, the
    child is recorded as ended, no cleanup thread of the session is
    pending, and the file system is what it was before the launch. *)
Theorem natural_exit_restores env env' code files (w : world) d b :
  healthy env' →
  foreground_child env = Spawns b →
  (materialize env (utf8 "kata_live_") code files (stop_local w).2).1 = Returned d →
  (∀ n, fs w !! (d ++ [n]) = None) →
  (∀ t, t ∈ watchers w → t.1 ≠ next_pid w) →
  registry (natural_exit env env' code files w) = None
  ∧ procs (natural_exit env env' code files w) !! next_pid w = Some Exited
  ∧ watchers (natural_exit env env' code files w) = watchers w
  ∧ fs (natural_exit env env' code files w) = fs w.
Proof.
  intros Hh Hc Hm Hfresh Hw.
  unfold natural_exit. cbn [fold_left step]. rewrite run_local_eq.
  destruct (stop_local_outcome w) as (res & w0 & Hs & Hfs & Hnp & Hwa & _).
  rewrite Hs in *. cbn [snd] in *.
  rewrite <- Hfs in Hfresh. rewrite <- Hfs, <- Hnp, <- Hwa. rewrite <- Hnp, <- Hwa in Hw.
  clear Hs Hfs Hnp Hwa w res.
  destruct (materialize_filled env code files w0 _ d Hm Hfresh)
    as (Hnone & Hdir & Hof & Hout).
  destruct (fsop_materialize env (utf8 "kata_live_") code files w0) as [Hfr _].
  destruct (materialize env _ code files w0) as [[d'|e] w1]; cbn [fst snd] in *; [|done].
  injection Hm as ->. rewrite Hc. cbn [snd].
  apply frame_fields in Hfr as (Hpr & Hnp & Hreg & Hwa & _).
  rewrite <- Hnp, <- Hwa. rewrite <- Hnp, <- Hwa in Hw.
  unfold child_exits, launched. cbn [procs]. rewrite lookup_insert_eq.
  unfold cleanup_runs, set_procs. cbn [procs watchers]. rewrite lookup_insert_eq.
  rewrite (list_find_last_watcher _ _ _ Hw).
  unfold set_watchers. cbn [fs procs next_pid registry watchers trace].
  rewrite delete_last.
  match goal with |- context [_cleanup env' ?p d ?w2] =>
    destruct (cleanup_eq env' p d w2) as (w3 & -> & Hfs3 & Hpr3 & _ & Hwa3 & Hreg3);
    cbn [fs procs next_pid registry watchers trace] in Hfs3, Hpr3, Hwa3, Hreg3
  end.
  rewrite decide_True in Hreg3 by done.
  destruct (fsop_remove_run_dir env' (d ++ [utf8 "kata.py"]) d w3) as [Hfr3 _].
  apply frame_fields in Hfr3 as (Hpr4 & _ & Hreg4 & Hwa4 & _).
  rewrite Hreg4, Hpr4, Hwa4, Hreg3, Hpr3, Hwa3.
  split; [done|]. split; [by rewrite lookup_insert_eq|]. split; [done|].
  eapply (cleared_restores d); [done..|].
  rewrite <- Hfs3 in *. by apply remove_run_dir_cleared.
Qed.

Lemma natural_exit_restores_witness :
  registry (natural_exit (env_of Hangs) (env_of Hangs) (utf8 "cv2.VideoCapture(0)")
              kata_upload initial) = None
  ∧ procs (natural_exit (env_of Hangs) (env_of Hangs) (utf8 "cv2.VideoCapture(0)")
             kata_upload initial) !! next_pid initial = Some Exited
  ∧ watchers (natural_exit (env_of Hangs) (env_of Hangs) (utf8 "cv2.VideoCapture(0)")
                kata_upload initial) = watchers initial
  ∧ fs (natural_exit (env_of Hangs) (env_of Hangs) (utf8 "cv2.VideoCapture(0)")
          kata_upload initial) = fs initial.
Proof.
  assert (healthy (env_of Hangs)) as Hh by done.
  assert ((materialize (env_of Hangs) (utf8 "kata_live_") (utf8 "cv2.VideoCapture(0)")
             kata_upload (stop_local initial).2).1 = Returned live_dir) as Hm
    by (vm_compute; reflexivity).
  assert (∀ n, fs initial !! (live_dir ++ [n]) = None) as Hf
    by (intros n; apply lookup_empty).
  assert (∀ t, t ∈ watchers initial → t.1 ≠ next_pid initial) as Hw
    by (intros t Ht; inversion Ht).
  exact (natural_exit_restores (env_of Hangs) (env_of Hangs) _ _ initial live_dir
           (Some 100) Hh eq_refl Hm Hf Hw).
Defined.

(** ** A launch ends what ran before, whatever becomes of it *)

Lemma stop_local_keeps_children (w : world) (p : pid) :
  is_Some (procs w !! p) → is_Some (procs (stop_local w).2 !! p).
Proof.
  intros Hp. destruct (stop_local_outcome w) as (res & w' & -> & _ & _ & _ & _ & H).
  cbn [snd]. destruct (registry w) as [q|].
  - destruct (procs w !! q) as [[b|b|]|] eqn:Hq.
    1,2: destruct H as (_ & Hq' & Ho & _);
         (destruct (decide (p = q)) as [->|Hne]; [by eexists|by rewrite Ho]).
    all: destruct H as (_ & -> & _); done.
  - by destruct H as (_ & -> & _).
Qed.

Lemma run_local_ends_prior env code files (w : world) (p : pid) st :
  invariant w → procs w !! p = Some st →
  (∃ st', procs (run_local env code files w).2 !! p = Some st' ∧ alive st' = false)
  ∧ registry (run_local env code files w).2 ≠ Some p.
Proof.
  intros Hi Hp.
  pose proof (inv_fresh w Hi _ _ Hp) as Hlt.
  destruct (invariant_stop w Hi) as [_ [Hreg0 Hdead]].
  destruct (stop_local_keeps_children w p) as [st0 Hp0]; [by eexists|].
  pose proof (Hdead _ _ Hp0) as Ha0.
  assert (next_pid (stop_local w).2 = next_pid w) as Hnp0.
  { by destruct (stop_local_outcome w) as (res & w' & -> & _ & ? & _). }
  rewrite run_local_eq.
  destruct (fsop_materialize env (utf8 "kata_live_") code files (stop_local w).2)
    as [Hfr _].
  destruct (materialize env _ code files (stop_local w).2) as [[d|e] w1];
    cbn [snd] in *; apply frame_fields in Hfr as (Hpr & Hnp & Hreg & _).
  - destruct (foreground_child env) as [m|b]; cbn [snd].
    + destruct (fsop_remove_run_dir env (d ++ [utf8 "kata.py"]) d w1) as [Hfr' _].
      apply frame_fields in Hfr' as (-> & _ & -> & _). rewrite Hpr, Hreg, Hreg0.
      split; [by eexists|done].
    + unfold launched. cbn [procs registry].
      assert (next_pid w1 ≠ p) as Hne by lia.
      rewrite lookup_insert_ne by done. rewrite Hpr.
      split; [by eexists|congruence].
  - rewrite Hpr, Hreg, Hreg0. split; [by eexists|done].
Qed.

(** X10.  In every state the system reaches, a launch ends the children
    that existed before it, whether the launch succeeds, returns an error
    or raises: afterwards each of them is recorded and not alive, and the
    registry does not hold its handle. *)
Theorem launch_ends_prior_children (ops : list op) env code files (p : pid) st :
  procs (run_ops ops) !! p = Some st →
  (∃ st', procs (run_local env code files (run_ops ops)).2 !! p = Some st'
          ∧ alive st' = false)
  ∧ registry (run_local env code files (run_ops ops)).2 ≠ Some p.
Proof. apply run_local_ends_prior, invariant_run_ops. Qed.

Lemma launch_ends_prior_children_witness :
  procs (run_ops first_launch) !! 0 = Some (Running (Some 100))
  ∧ (∃ st', procs (run_local no_python (utf8 "cv2.VideoCapture(1)") None
                     (run_ops first_launch)).2 !! 0 = Some st'
            ∧ alive st' = false)
  ∧ registry (run_local no_python (utf8 "cv2.VideoCapture(1)") None
                (run_ops first_launch)).2 ≠ Some 0.
Proof.
  assert (procs (run_ops first_launch) !! 0 = Some (Running (Some 100))) as Hp
    by (vm_compute; reflexivity).
  split; [exact Hp|].
  exact (launch_ends_prior_children first_launch no_python _ None 0 _ Hp).
Defined.

(** ** The route: which runner a request reaches *)






(** ** The cleanup thread of an earlier session *)

(** X13.  The [_cleanup] thread of a child never unregisters another
    child: when the registry holds the handle of a different child, for
    instance that of a session launched since, it holds the same handle
    after the thread has run, and no child changes its state. *)
Theorem cleanup_keeps_other_handle env (p q : pid) (w : world) :
  registry w = Some q → q ≠ p →
  registry (cleanup_runs env p w) = Some q
  ∧ procs (cleanup_runs env p w) = procs w.
Proof.
  intros Hreg Hne. unfold cleanup_runs.
  destruct (procs w !! p) as [[b|b|]|]; try done.
  destruct (list_find _ _) as [[i [p' d]]|]; [|done].
  destruct (cleanup_eq env p d (set_watchers (delete i) w))
    as (w1 & -> & _ & Hpr & _ & _ & Hr).
  destruct (fsop_remove_run_dir env (d ++ [utf8 "kata.py"]) d w1) as [Hfr _].
  apply frame_fields in Hfr as (-> & _ & -> & _).
  rewrite Hr, Hpr. cbn [registry procs set_watchers]. rewrite Hreg.
  rewrite decide_False by congruence. done.
Qed.

Lemma cleanup_keeps_other_handle_witness :
  registry (run_ops second_launch) = Some 1
  ∧ procs (run_ops second_launch) !! 0 = Some Exited
  ∧ registry (cleanup_runs (env_of Hangs) 0 (run_ops second_launch)) = Some 1
  ∧ procs (cleanup_runs (env_of Hangs) 0 (run_ops second_launch))
    = procs (run_ops second_launch).
Proof.
  assert (registry (run_ops second_launch) = Some 1) as Hreg
    by (vm_compute; reflexivity).
  assert (procs (run_ops second_launch) !! 0 = Some Exited) as Hp
    by (vm_compute; reflexivity).
  assert (1 ≠ 0) as Hne by done.
  split; [exact Hreg|]. split; [exact Hp|].
  exact (cleanup_keeps_other_handle (env_of Hangs) 0 1 (run_ops second_launch) Hreg Hne).
Defined.

(** ** Stopping twice *)

(** X14.  A second stop finds nothing to do: right after [stop_local], a
    further [stop_local] reports that no local process was running, sends
    no signal, and leaves the children and the empty registry as they
    are. *)
Theorem stop_local_twice (w : world) :
  (stop_local (stop_local w).2).1 = Returned NOT_RUNNING
  ∧ procs (stop_local (stop_local w).2).2 = procs (stop_local w).2
  ∧ registry (stop_local (stop_local w).2).2 = None
  ∧ trace (stop_local (stop_local w).2).2 = trace (stop_local w).2 ++ TAKE.
Proof.
  destruct (stop_local_outcome w) as (res & w1 & -> & _ & _ & _ & Hreg & _).
  cbn [snd].
  destruct (stop_local_outcome w1) as (res' & w2 & -> & _ & _ & _ & Hreg' & H).
  rewrite Hreg in H. cbn [fst snd]. by destruct H as (-> & -> & ->).
Qed.

(** ** Names that need no sanitizing *)

(** X15.  The sanitizing of an upload's name leaves a plain name alone: a
    name without [/] other than [.] is used as it is.  The sanitized name
    is never [.], and sanitizing it again changes nothing. *)
Theorem path_name_keeps_plain_names :
  (∀ n, SLASH ∉ n → n ≠ utf8 "." → path_name n = n)
  ∧ (∀ filename, path_name filename ≠ utf8 ".")
  ∧ (∀ filename, path_name (path_name filename) = path_name filename).
Proof.
  assert (∀ n, SLASH ∉ n → n ≠ utf8 "." → path_name n = n) as H.
  { intros n Hs Hd. unfold path_name, path_parts. rewrite split_plain by done.
    rewrite filter_cons, filter_nil. destruct n as [|a n].
    - by rewrite decide_False by (by intros [? _]).
    - by rewrite decide_True. }
  split; [exact H|]. split; [apply path_name_not_dot|].
  intros filename. apply H; [apply path_name_no_slash|apply path_name_not_dot].
Qed.

(** ** The removal stays inside the scratch directory *)

Section outside.
Context (d q : path) (f0 : gmap path node).
Hypothesis not_dir : q ≠ d.
Hypothesis not_child : ∀ n, q ≠ d ++ [n].

Lemma outside_unlink env b n : preserves (λ w, fs w !! q = f0 !! q) (unlink env b (d ++ [n])).
Proof.
  intros w Hw. unfold unlink. destruct (io_fault env _); [done|].
  destruct (fs w !! (d ++ [n])) as [[|c]|]; [done| |by destruct b].
  cbn. by rewrite lookup_delete_ne.
Qed.

Lemma outside_unlink_files env cs :
  Forall (λ c, ∃ n, c = d ++ [n]) cs → preserves (λ w, fs w !! q = f0 !! q) (unlink_files env cs).
Proof.
  induction 1 as [|c cs [n ->] _ IH]; cbn [unlink_files]; [apply preserves_ret|].
  apply preserves_bind; [apply preserves_gets|]. intros f.
  apply preserves_bind; [|done].
  destruct f; [apply outside_unlink|apply preserves_ret].
Qed.

Lemma outside_rmdir env : preserves (λ w, fs w !! q = f0 !! q) (rmdir env d).
Proof.
  intros w Hw. unfold rmdir. destruct (io_fault env d); [done|].
  destruct (fs w !! d) as [[|c]|]; [|done..].
  destruct (children (fs w) d); [|done]. cbn.
  by rewrite lookup_delete_ne.
Qed.

Lemma outside_remove_run_dir env n : preserves (λ w, fs w !! q = f0 !! q) (remove_run_dir env (d ++ [n]) d).
Proof.
  unfold remove_run_dir, ignoring_OSError.
  apply preserves_try_except; [|intros []; by intros w].
  apply preserves_bind; [apply preserves_gets|]. intros e.
  apply preserves_bind; [destruct e; [apply outside_unlink|apply preserves_ret]|].
  intros _ w Hw. rewrite bind_eq. unfold iterdir.
  destruct (io_fault env d); [done|].
  destruct (fs w !! d) as [[|c]|]; [|done..].
  apply (preserves_bind (λ w, fs w !! q = f0 !! q) (unlink_files env (children (fs w) d))
           (λ _, rmdir env d)); [|intros _; apply outside_rmdir|done].
  apply outside_unlink_files, Forall_forall. intros c Hc.
  by apply elem_of_children in Hc as [? _].
Qed.
End outside.

(** X16.  [_cleanup] never reaches beyond its scratch directory: whatever
    the state of the system and however the removal fails, it returns
    normally, no child changes its state, and every path other than the
    directory and the entries directly in it holds what it held. *)
Theorem cleanup_stays_inside env (p : pid) (d : path) (w : world) :
  (_cleanup env p d w).1 = Returned tt
  ∧ procs (_cleanup env p d w).2 = procs w
  ∧ ∀ q, q ≠ d → (∀ n, q ≠ d ++ [n]) →
      fs (_cleanup env p d w).2 !! q = fs w !! q.
Proof.
  destruct (cleanup_eq env p d w) as (w1 & -> & Hfs & Hpr & _).
  split; [apply remove_run_dir_returns|]. split.
  - destruct (fsop_remove_run_dir env (d ++ [utf8 "kata.py"]) d w1) as [Hfr _].
    apply frame_fields in Hfr as (-> & _). done.
  - intros q Hq1 Hq2. rewrite <- Hfs.
    by apply (outside_remove_run_dir d q (fs w1) Hq1 Hq2 env (utf8 "kata.py") w1).
Qed.
